(** * ArcticDB write path: [pipeline/frame_utils.hpp]

    A shallow embedding of three functions that [frame_utils.hpp] defines
    ([get_max_string_size], [flatten_tensor], [aggregator_set_data]) and the
    properties the ingestion specification states about them.

    The header is a template over its collaborators.  What it only declares
    or includes (type traits, the Python runtime, the string pool, the
    aggregator) enters as an interface: a type class whose operations are the
    calls the header makes.  Small instances of the interfaces follow the
    model and are used to run it on concrete frames.

    Part I holds the definitions, Part II the lemmas and theorems. *)

From stdpp Require Import base numbers list option strings gmap.
From Stdlib Require Import ZArith Lia.

Local Open Scope Z_scope.

(** * Part I: the model *)

(** ** Machine integers and bytes *)

Module Machine.

(** [size_t] is 64 bits wide, [unsigned int] 32 bits. *)
Definition SIZE_MOD : Z := 2 ^ 64.
Definition UINT_MOD : Z := 2 ^ 32.

Definition wrap_size (z : Z) : Z := z mod SIZE_MOD.
Definition wrap_uint (z : Z) : Z := z mod UINT_MOD.

(** [a * b] and [a + b] on [size_t]. *)
Definition size_mul (a b : Z) : Z := wrap_size (a * b).
Definition size_add (a b : Z) : Z := wrap_size (a + b).

(** Pointer displacement: addresses live in the 64-bit address space. *)
Definition ptr_add (p off : Z) : Z := wrap_size (p + off).

(** The sizes of a [PyObject] pointer and of [StringPool::offset_t]. *)
Definition SIZEOF_PTR : Z := 8.
Definition SIZEOF_OFFSET : Z := 8.

(** Little-endian layout of an [n]-byte unsigned value. *)
Fixpoint encode_le (n : nat) (v : Z) : list Z :=
  match n with
  | O => []
  | S n' => (v mod 256) :: encode_le n' (v / 256)
  end.

Fixpoint decode_le (bs : list Z) : Z :=
  match bs with
  | [] => 0
  | b :: bs' => b + 256 * decode_le bs'
  end.

End Machine.
Import Machine.

(** ** Memory and buffers *)

(** The caller's frame memory, byte addressed.  The header only reads it. *)
Definition Memory : Type := Z -> Z.

Definition load_bytes (m : Memory) (a : Z) (n : nat) : list Z :=
  map (fun i => m (ptr_add a (Z.of_nat i))) (seq 0 n).

(** A value of 8 bytes (a handle, an offset) read at address [a]. *)
Definition load_word (m : Memory) (a : Z) : Z := decode_le (load_bytes m a 8).

(** Modelled from the spec: [ChunkedBuffer] (column_store/chunked_buffer.hpp)
    is not under src/.  Section 4.1: [presized(byteSize)] returns a buffer
    holding exactly [byteSize] contiguous bytes, aliasing no other buffer.
    The bytes are owned by the buffer; their initial content is immaterial
    and taken as zero. *)
Abbreviation ChunkedBuffer := (list Z).

Definition presized (n : Z) : ChunkedBuffer := replicate (Z.to_nat n) 0.

(** A store through a raw pointer into a buffer: [bs] lands at byte [off].
    The model has no memory around a buffer: it describes the stores that
    land inside the buffer's bytes, which are the stores of a call whose
    allocation holds every slot it stores to.  A store outside the
    allocation has no meaning in C++; [write_bytes] leaves the buffer as it
    is there, and the theorems that say what a call stores ask that the
    [size_t] product sizing the allocation does not wrap, so that every
    store they speak of lands inside it. *)
Fixpoint write_bytes (buf : ChunkedBuffer) (off : nat) (bs : list Z) : ChunkedBuffer :=
  match bs with
  | [] => buf
  | b :: bs' => write_bytes (<[off := b]> buf) (S off) bs'
  end.

Definition read_bytes (buf : ChunkedBuffer) (off n : nat) : list Z :=
  take n (drop off buf).

(** The 8-byte value at byte [off] of a buffer, and slot [i] of a buffer of
    8-byte values. *)
Definition read_word_at (buf : ChunkedBuffer) (off : Z) : Z :=
  decode_le (read_bytes buf (Z.to_nat off) 8).

Definition slot_bytes (buf : ChunkedBuffer) (i : Z) : list Z :=
  read_bytes buf (Z.to_nat (8 * i)) 8.

Definition read_word (buf : ChunkedBuffer) (i : Z) : Z := read_word_at buf (8 * i).

Definition write_word (buf : ChunkedBuffer) (i : Z) (v : Z) : ChunkedBuffer :=
  write_bytes buf (Z.to_nat (8 * i)) (encode_le 8 v).

(** Where a pointer points: into the caller's frame, or into the buffer that
    [flatten_tensor] has just filled. *)
Inductive Ptr : Type :=
  | ExternalPtr (addr : Z)
  | FlattenedPtr (off : Z).

(** The memory a call can reach: the caller's frame and the local
    [std::optional<ChunkedBuffer> flattened_buffer]. *)
Record Store : Type := mkStore {
  external : Memory;
  flattened_buffer : option ChunkedBuffer
}.

(** [*p] and [p + n] for a pointer to 8-byte elements. *)
Definition deref_word (st : Store) (p : Ptr) : Z :=
  match p with
  | ExternalPtr a => load_word (external st) a
  | FlattenedPtr off => read_word_at (default [] (flattened_buffer st)) off
  end.

Definition ptr_advance (p : Ptr) (n : Z) : Ptr :=
  match p with
  | ExternalPtr a => ExternalPtr (ptr_add a (n * 8))
  | FlattenedPtr off => FlattenedPtr (off + n * 8)
  end.

(** ** How a call ends *)

Inductive Exception : Type :=
  | CheckFailure (msg : string)      (* util::check *)
  | RuntimeError (msg : string)      (* util::raise_rte *)
  | AssertionFailure (msg : string). (* internal::raise<E_ASSERTION_FAILURE> *)

(** A [static_assert] that fires rejects the instantiation before any
    statement of it runs; an exception leaves the call; otherwise the call
    returns. *)
Inductive Completion (A : Type) : Type :=
  | StaticAssertion (msg : string)
  | Raised (e : Exception)
  | Returned (a : A).

Arguments StaticAssertion {A} msg.
Arguments Raised {A} e.
Arguments Returned {A} a.

(** ** Interfaces of the collaborators *)

(** [entity/types.hpp] is not under src/.  The header asks a tag for its
    [data_type], the size of its [raw_type], and for the category
    predicates below; they are taken as given. *)
Class TypeTraits (DataType : Type) : Type := {
  data_type_eq_dec :: EqDecision DataType;
  is_sequence_type : DataType -> bool;
  is_fixed_string_type : DataType -> bool;
  (** [is_utf_type(slice_value_type(dt))] *)
  is_utf_type : DataType -> bool;
  is_numeric_type : DataType -> bool;
  is_bool_type : DataType -> bool;
  is_floating_point_type : DataType -> bool;
  is_empty_type : DataType -> bool;
  (** [sizeof(RawType)] *)
  sizeof_raw : DataType -> Z
}.

(** [convert::StringEncodingError] and [convert::PyStringWrapper]: the error
    carries the row index within the slice; the wrapper's [buffer_] and
    [length_] delimit the decoded bytes. *)
Record StringEncodingError : Type := mkEncodingError {
  error_message_ : string;
  row_index_in_slice_ : Z
}.

Record PyStringWrapper : Type := mkWrapper {
  buffer_ : list Z
}.

(** [std::variant<convert::StringEncodingError, convert::PyStringWrapper>] *)
Inductive WrapperOrError : Type :=
  | HoldsError (e : StringEncodingError)
  | HoldsWrapper (w : PyStringWrapper).

(** [ScopedGILLock]: the embedding runtime's exclusivity lock, held while the
    guard lives. *)
Inductive ScopedGILLock : Type := GilHeld.

(** The Python runtime ([python/python_types.hpp],
    [python/python_to_tensor_frame.hpp]) is not under src/.  A handle is the
    value of a [PyObject] pointer.  [unicode_buffer] is the variant that
    [convert::py_unicode_to_buffer] returns for an object and
    [needs_runtime_decoding] tells whether the object is not already plain
    ASCII/UTF-8, so that decoding it allocates a runtime object. *)
Class PythonRuntime : Type := {
  py_none : Z;
  is_py_nan : Z -> bool;
  pystring_to_buffer : Z -> bool -> WrapperOrError;
  unicode_buffer : Z -> WrapperOrError;
  needs_runtime_decoding : Z -> bool
}.

(** Modelled from the spec: [convert::py_unicode_to_buffer] is not under
    src/.  Section 5 and the comment at lines 135-138: the lock is acquired
    when the object is not pure ASCII/UTF-8, through the optional guard the
    caller passes by reference, and a guard that is set stays set. *)
Definition py_unicode_to_buffer `{PythonRuntime} (obj : Z)
    (scoped_gil_lock : option ScopedGILLock) : WrapperOrError * option ScopedGILLock :=
  (unicode_buffer obj,
   if needs_runtime_decoding obj
   then match scoped_gil_lock with
        | Some g => Some g
        | None => Some GilHeld
        end
   else scoped_gil_lock).

(** [column_store/string_pool.hpp] and [pipeline/string_pool_utils.hpp] are
    not under src/.  [pool_get] is [StringPool::get(buffer, length)] followed
    by [offset()].  [get_string_from_pool offset pool] resolves an offset to
    its content; Section 4.2: it fails, here [None], for an offset that is a
    reserved sentinel or that corresponds to no interned content. *)
Class StringPoolOps (StringPool : Type) : Type := {
  pool_get : StringPool -> list Z -> StringPool * Z;
  get_string_from_pool : Z -> StringPool -> option (list Z);
  not_a_string : Z;
  nan_placeholder : Z
}.

(** ** Tensors *)

Section Tensor.

Context {DataType : Type}.

(** Modelled from the spec: [NativeTensor] (entity/native_tensor.hpp) is not
    under src/.  Section 3, TypedColumnView: base pointer, row stride,
    element size and type tag of one externally owned column. *)
Record NativeTensor : Type := mkTensor {
  nt_data_type : DataType;
  nt_data : Z;
  nt_strides0 : Z;
  nt_elsize : Z
}.

(** [entity::TypeDescriptor], as far as the header reads it. *)
Record TypeDescriptor : Type := mkTypeDescriptor {
  td_data_type : DataType
}.

(** Modelled from the spec: [TypedTensor] is not under src/.  It is the view
    of [nvalues] rows that starts at the view's starting row,
    [slice_num * regular_slice_size]; row [i] of the view is found [i]
    strides further. *)
Record TypedTensor : Type := mkTyped {
  tt_data : Z;
  tt_stride : Z;
  tt_rows : Z
}.

Definition typed_tensor (t : NativeTensor) (slice_num regular_slice_size nvalues : Z)
  : TypedTensor :=
  {| tt_data := ptr_add (nt_data t) (slice_num * regular_slice_size * nt_strides0 t);
     tt_stride := nt_strides0 t;
     tt_rows := nvalues |}.

Definition view_addr (t : TypedTensor) (i : Z) : Z :=
  ptr_add (tt_data t) (i * tt_stride t).

(** Modelled from the spec: [util::is_cstyle_array] (util/flatten_utils.hpp)
    is not under src/.  Glossary: C-style contiguous is the row-major,
    unit-stride layout, rows one element apart. *)
Definition is_cstyle_array (sizeof_raw : Z) (t : NativeTensor) : bool :=
  bool_decide (nt_strides0 t = sizeof_raw).

(** Modelled from the spec: [NativeTensor::ptr_cast] is not under src/: the
    address of element [pos] of a contiguous column of [RawType]. *)
Definition ptr_cast (sizeof_raw : Z) (t : NativeTensor) (pos : Z) : Z :=
  ptr_add (nt_data t) (pos * sizeof_raw).

(** Modelled from the spec: [util::FlattenHelper::flatten] is not under
    src/.  Section 4.3: the values are gathered in row order, the view's
    stride locating each source element, and stored one after the other
    through [dst].  [flatten_rows k] is the destination after [k] rows. *)
Fixpoint flatten_rows (m : Memory) (sizeof_raw : Z) (t : TypedTensor)
    (k : nat) (dst : ChunkedBuffer) : ChunkedBuffer :=
  match k with
  | O => dst
  | S k' =>
      let i := Z.of_nat k' in
      write_bytes (flatten_rows m sizeof_raw t k' dst)
        (Z.to_nat (i * sizeof_raw))
        (load_bytes m (view_addr t i) (Z.to_nat sizeof_raw))
  end.

Definition flatten (m : Memory) (sizeof_raw : Z) (t : TypedTensor) (dst : ChunkedBuffer)
  : ChunkedBuffer :=
  flatten_rows m sizeof_raw t (Z.to_nat (tt_rows t)) dst.

(** [flatten_tensor<RawType>], lines 77-91.  [sizeof_raw] is
    [sizeof(RawType)]; the out-parameter [flattened_buffer] is the store's. *)
Definition flatten_tensor (sizeof_raw : Z) (st : Store) (rows_to_write : Z)
    (tensor : NativeTensor) (slice_num regular_slice_size : Z) : Store * Ptr :=
  let buf := presized (size_mul rows_to_write sizeof_raw) in
  let t := typed_tensor tensor slice_num regular_slice_size rows_to_write in
  let buf' := flatten (external st) sizeof_raw t buf in
  ({| external := external st; flattened_buffer := Some buf' |}, FlattenedPtr 0).

End Tensor.

Arguments NativeTensor : clear implicits.
Arguments TypeDescriptor : clear implicits.

(** ** Columns and segments *)

(** Modelled from the spec: [Column] and [SegmentInMemory] are not under
    src/.  Section 3: a column owns a buffer and may hold borrowed external
    blocks (address and byte count) and a presence bitmap; a segment is a
    group of columns that share one string pool.  A column that holds nothing
    yet is the empty column. *)
Record Column : Type := mkColumn {
  col_buffer : ChunkedBuffer;
  col_external : list (Z * Z);
  col_sparse_map : option (list bool)
}.

Definition empty_column : Column := mkColumn [] [] None.

(** [Column::allocate_data(bytes)] appends [bytes] bytes to the buffer. *)
Definition allocate_data (c : Column) (bytes : Z) : Column :=
  mkColumn (col_buffer c ++ presized bytes) (col_external c) (col_sparse_map c).

Definition with_buffer (c : Column) (buf : ChunkedBuffer) : Column :=
  mkColumn buf (col_external c) (col_sparse_map c).

Record SegmentInMemory (StringPool : Type) : Type := mkSegment {
  columns : gmap Z Column;
  string_pool : StringPool
}.

Arguments mkSegment {StringPool} columns string_pool.
Arguments columns {StringPool} s.
Arguments string_pool {StringPool} s.

Definition column {StringPool : Type} (seg : SegmentInMemory StringPool) (col : Z) : Column :=
  default empty_column (columns seg !! col).

(** The bytes a reader of the column sees when the frame memory is [m]: the
    owned buffer, then each borrowed block read through its pointer. *)
Definition column_bytes (m : Memory) (c : Column) : list Z :=
  col_buffer c ++
  concat (map (fun blk => load_bytes m (fst blk) (Z.to_nat (snd blk))) (col_external c)).

(** The aggregator is a template parameter of [aggregator_set_data].  It is
    modelled by the segment it fills ([agg.segment()]) and the four methods
    the header calls on it; the methods that are templates over the element
    type take [sizeof(T)] first, and all of them may read the frame. *)
Class Aggregator (StringPool : Type) : Type := {
  (** [set_string_at(col, row, val, size)] *)
  set_string_at :
    Memory -> SegmentInMemory StringPool -> Z -> Z -> Z -> Z -> SegmentInMemory StringPool;
  (** [set_sparse_block(col, ptr, rows)] *)
  set_sparse_block :
    Z -> Memory -> SegmentInMemory StringPool -> Z -> Z -> Z -> SegmentInMemory StringPool;
  (** [set_external_block(col, ptr, rows)] *)
  set_external_block :
    Z -> Memory -> SegmentInMemory StringPool -> Z -> Z -> Z -> SegmentInMemory StringPool;
  (** [set_array(col, typed_tensor)] *)
  set_array :
    Z -> Memory -> SegmentInMemory StringPool -> Z -> TypedTensor -> SegmentInMemory StringPool
}.

(** ** [get_max_string_size], lines 34-47 *)

Section MaxStringSize.

Context {StringPool : Type} `{!StringPoolOps StringPool}.

(** [PipelineContextRow], as far as the function reads it: the row range of
    its slice and its string pool. *)
Record PipelineContextRow : Type := mkContextRow {
  row_range : Z * Z;
  context_string_pool : StringPool
}.

(** Modelled from the spec: [first_context_row] and [RowRange::diff]
    (pipeline/frame_slice.hpp) are not under src/.  Section 4.5: given an
    absolute row index and a slice, the row-to-slice lookup returns the
    row's position within the slice's local storage, and it fails, here
    [None], when the row index falls outside the slice's declared range;
    [diff] is the length of the slice's row range. *)
Definition first_context_row (context_row : PipelineContextRow) (first_row_in_frame : Z)
  : option Z :=
  let first := fst (row_range context_row) in
  let last := snd (row_range context_row) in
  if (first <=? first_row_in_frame) && (first_row_in_frame <? last)
  then Some (first_row_in_frame - first)
  else None.

Definition row_range_diff (context_row : PipelineContextRow) : Z :=
  if fst (row_range context_row) >? snd (row_range context_row) then 0
  else snd (row_range context_row) - fst (row_range context_row).

(** Modelled from the spec: [get_offset_string_at] (string_pool_utils.hpp) is
    not under src/: the offset stored in slot [i] of a column buffer.
    Section 4.1: a buffer holds exactly the bytes it was sized for, so a
    slot that does not lie within them holds nothing and the lookup fails,
    here [None]. *)
Definition get_offset_string_at (i : Z) (src : ChunkedBuffer) : option Z :=
  if (0 <=? i) && (8 * i + 8 <=? Z.of_nat (length src))
  then Some (read_word src i)
  else None.

(** The three lookups the function makes, none of them under src/, and how
    the function ends once the loop is left: a lookup that fails leaves the
    function at once (Section 7: surfaced immediately, never swallowed),
    otherwise it returns [max_length]. *)
Inductive Lookup : Type :=
  | RowInSlice       (* first_context_row *)
  | OffsetInBuffer   (* get_offset_string_at *)
  | StringInPool.    (* get_string_from_pool *)

Inductive Sizing : Type :=
  | LookupFailed (which : Lookup)
  | Size (max_length : Z).

(** The loop of lines 39-45.  [row] is declared [auto row = 0u], an
    [unsigned int]: [++row] wraps at [2 ^ 32], while [num_rows] and
    [offset + row] are [size_t].  Each unit of [fuel] pays for one test of
    the loop condition; [None] means the fuel ran out before the loop left. *)
Fixpoint max_string_size_loop (fuel : nat) (pool : StringPool) (src : ChunkedBuffer)
    (offset num_rows : Z) (row : Z) (max_length : Z) : option Sizing :=
  match fuel with
  | O => None
  | S fuel' =>
      if row <? num_rows then
        match get_offset_string_at (size_add offset row) src with
        | None => Some (LookupFailed OffsetInBuffer)
        | Some offset_val =>
            if (offset_val =? nan_placeholder) || (offset_val =? not_a_string) then
              max_string_size_loop fuel' pool src offset num_rows (wrap_uint (row + 1))
                max_length
            else
              match get_string_from_pool offset_val pool with
              | None => Some (LookupFailed StringInPool)
              | Some str =>
                  max_string_size_loop fuel' pool src offset num_rows (wrap_uint (row + 1))
                    (Z.max max_length (Z.of_nat (length str)))
              end
        end
      else Some (Size max_length)
  end.

Definition get_max_string_size (fuel : nat) (context_row : PipelineContextRow)
    (src : ChunkedBuffer) (first_row_in_frame : Z) : option Sizing :=
  match first_context_row context_row first_row_in_frame with
  | None => Some (LookupFailed RowInSlice)
  | Some offset =>
      let num_rows := row_range_diff context_row in
      max_string_size_loop fuel (context_string_pool context_row) src offset num_rows 0 0
  end.

Definition is_sentinel (offset_val : Z) : bool :=
  (offset_val =? nan_placeholder) || (offset_val =? not_a_string).

(** The lengths that count among the rows [rows]: [stored row] is the offset
    stored for a row and [text row] the pooled string it resolves to. *)
Definition row_lengths (stored : Z -> Z) (text : Z -> list Z) (rows : list Z) : list Z :=
  map (fun row => Z.of_nat (length (text row)))
      (filter (fun row => is_sentinel (stored row) = false) rows).

Definition max_of (zs : list Z) : Z := foldr Z.max 0 zs.

(** One round of the loop body on the running maximum. *)
Definition max_step (stored : Z -> Z) (text : Z -> list Z) (max_length row : Z) : Z :=
  if is_sentinel (stored row) then max_length
  else Z.max max_length (Z.of_nat (length (text row))).

End MaxStringSize.

Arguments PipelineContextRow : clear implicits.

(** ** [aggregator_set_data], lines 93-198 *)

Section SetData.

Context {DataType : Type} `{!TypeTraits DataType}.
Context `{!PythonRuntime}.
Context {StringPool : Type} `{!StringPoolOps StringPool} `{!Aggregator StringPool}.

(** What a call leaves behind: the aggregator's segment, the store with the
    local [flattened_buffer], the local [scoped_gil_lock] as it stands when
    the body ends, and how the call completes. *)
Record Outcome : Type := mkOutcome {
  out_agg : SegmentInMemory StringPool;
  out_store : Store;
  out_gil : option ScopedGILLock;
  out_result : Completion (option StringEncodingError)
}.

(** The [if constexpr] chain of lines 114, 170 and 193 selects one branch per
    tag; the last one carries the [static_assert]. *)
Inductive Branch : Type :=
  | SequenceBranch
  | NumericBranch
  | EmptyBranch
  | UnknownBranch.

Definition dispatch (dt : DataType) : Branch :=
  if is_sequence_type dt then SequenceBranch
  else if is_numeric_type dt || is_bool_type dt then NumericBranch
  else if negb (is_empty_type dt) then UnknownBranch
  else EmptyBranch.

(** *** Fixed-width strings, lines 116-125 *)

(** The loop variables [s] and [char_data]. *)
Record FixedLoop : Type := mkFixedLoop {
  fl_agg : SegmentInMemory StringPool;
  fl_s : Z;
  fl_char_data : Z
}.

(** The state after [k] rounds of the loop of lines 123-125. *)
Fixpoint fixed_string_rows (m : Memory) (col str_stride str_len : Z)
    (k : nat) (fl : FixedLoop) : FixedLoop :=
  match k with
  | O => fl
  | S k' =>
      let fl' := fixed_string_rows m col str_stride str_len k' fl in
      {| fl_agg := set_string_at m (fl_agg fl') col (fl_s fl') (fl_char_data fl') str_len;
         fl_s := fl_s fl' + 1;
         fl_char_data := ptr_add (fl_char_data fl') str_stride |}
  end.

Definition set_fixed_strings (m : Memory) (tensor : NativeTensor DataType)
    (agg : SegmentInMemory StringPool) (col rows_to_write row : Z)
  : SegmentInMemory StringPool :=
  let str_stride := nt_strides0 tensor in
  let data := nt_data tensor in
  let char_data := ptr_add data (row * str_stride) in
  let str_len := nt_elsize tensor in
  fl_agg (fixed_string_rows m col str_stride str_len (Z.to_nat rows_to_write)
            {| fl_agg := agg; fl_s := 0; fl_char_data := char_data |}).

(** *** Variable-length strings, lines 127-168 *)

(** The loop variables [s], [ptr_data] and [out_ptr] (as a slot index into
    the column's buffer), the buffer and the pool they write to, and the
    optional lock guard. *)
Record LoopState : Type := mkLoopState {
  ls_s : Z;
  ls_ptr_data : Ptr;
  ls_out_ptr : Z;
  ls_buffer : ChunkedBuffer;
  ls_string_pool : StringPool;
  ls_scoped_gil_lock : option ScopedGILLock
}.

(** One round of the loop, lines 145-167; [Some error] is the [return] of
    line 163.  The variant always holds one of its two alternatives, so the
    [raise] of line 165 has no case. *)
Definition string_row (dt : DataType) (st : Store) (ls : LoopState)
  : LoopState * option StringEncodingError :=
  let obj := deref_word st (ls_ptr_data ls) in
  let store_offset (v : Z) (pool : StringPool) (gil : option ScopedGILLock) :=
    {| ls_s := ls_s ls + 1;
       ls_ptr_data := ptr_advance (ls_ptr_data ls) 1;
       ls_out_ptr := ls_out_ptr ls + 1;
       ls_buffer := write_word (ls_buffer ls) (ls_out_ptr ls) v;
       ls_string_pool := pool;
       ls_scoped_gil_lock := gil |} in
  if bool_decide (obj = py_none) then
    (store_offset not_a_string (ls_string_pool ls) (ls_scoped_gil_lock ls), None)
  else if is_py_nan obj then
    (store_offset nan_placeholder (ls_string_pool ls) (ls_scoped_gil_lock ls), None)
  else
    let '(wrapper_or_error, gil) :=
      if is_utf_type dt then py_unicode_to_buffer obj (ls_scoped_gil_lock ls)
      else (pystring_to_buffer obj false, ls_scoped_gil_lock ls) in
    match wrapper_or_error with
    | HoldsWrapper wrapper =>
        let '(pool, offset) := pool_get (ls_string_pool ls) (buffer_ wrapper) in
        (store_offset offset pool gil, None)
    | HoldsError error =>
        ({| ls_s := ls_s ls;
            ls_ptr_data := ls_ptr_data ls;
            ls_out_ptr := ls_out_ptr ls;
            ls_buffer := ls_buffer ls;
            ls_string_pool := ls_string_pool ls;
            ls_scoped_gil_lock := gil |},
         Some {| error_message_ := error_message_ error;
                 row_index_in_slice_ := ls_s ls |})
    end.

(** The loop after [k] rounds, or after the round that returned if one of
    the first [k] did.  The guard [s < rows_to_write] is the bound on [k]. *)
Fixpoint string_rows (dt : DataType) (st : Store) (k : nat) (ls : LoopState)
  : LoopState * option StringEncodingError :=
  match k with
  | O => (ls, None)
  | S k' =>
      match string_rows dt st k' ls with
      | (ls', Some error) => (ls', Some error)
      | (ls', None) => string_row dt st ls'
      end
  end.

(** Lines 127-143: the store and the loop variables when the loop starts. *)
Definition string_loop_start (c_style : bool) (st : Store) (tensor : NativeTensor DataType)
    (agg : SegmentInMemory StringPool) (col rows_to_write row slice_num regular_slice_size : Z)
  : Store * LoopState :=
  let data := nt_data tensor in
  let ptr_data := ExternalPtr (ptr_add data (row * SIZEOF_PTR)) in
  let '(st', ptr_data) :=
    if negb c_style
    then flatten_tensor SIZEOF_PTR st rows_to_write tensor slice_num regular_slice_size
    else (st, ptr_data) in
  let column := allocate_data (column agg col) (size_mul rows_to_write SIZEOF_OFFSET) in
  (st', {| ls_s := 0;
           ls_ptr_data := ptr_data;
           ls_out_ptr := 0;
           ls_buffer := col_buffer column;
           ls_string_pool := string_pool agg;
           ls_scoped_gil_lock := None |}).

(** The segment once the loop has written through [column] and
    [string_pool], both references into [agg.segment()]. *)
Definition string_loop_segment (agg : SegmentInMemory StringPool) (col rows_to_write : Z)
    (ls : LoopState) : SegmentInMemory StringPool :=
  let column := allocate_data (column agg col) (size_mul rows_to_write SIZEOF_OFFSET) in
  {| columns := <[col := with_buffer column (ls_buffer ls)]> (columns agg);
     string_pool := ls_string_pool ls |}.

Definition set_dynamic_strings (dt : DataType) (c_style : bool) (st : Store)
    (tensor : NativeTensor DataType) (agg : SegmentInMemory StringPool)
    (col rows_to_write row slice_num regular_slice_size : Z)
  : Outcome :=
  let '(st', ls0) :=
    string_loop_start c_style st tensor agg col rows_to_write row slice_num regular_slice_size in
  let '(ls, error) := string_rows dt st' (Z.to_nat rows_to_write) ls0 in
  {| out_agg := string_loop_segment agg col rows_to_write ls;
     out_store := st';
     out_gil := ls_scoped_gil_lock ls;
     out_result := Returned error |}.

(** *** Numbers and booleans, lines 171-192 *)

Definition set_numeric (dt : DataType) (c_style : bool) (st : Store)
    (tensor : NativeTensor DataType) (agg : SegmentInMemory StringPool)
    (col rows_to_write row slice_num regular_slice_size : Z) (sparsify_floats : bool)
  : Outcome :=
  let ptr := ptr_cast (sizeof_raw dt) tensor row in
  let done agg' result :=
    {| out_agg := agg'; out_store := st; out_gil := None; out_result := result |} in
  if sparsify_floats then
    if is_floating_point_type dt then
      done (set_sparse_block (sizeof_raw dt) (external st) agg col ptr rows_to_write)
           (Returned None)
    else
      done agg (Raised (RuntimeError
                          "sparse currently supported for floating point columns only."))
  else if c_style then
    done (set_external_block (sizeof_raw dt) (external st) agg col ptr rows_to_write)
         (Returned None)
  else
    let t := typed_tensor tensor slice_num regular_slice_size rows_to_write in
    done (set_array (sizeof_raw dt) (external st) agg col t) (Returned None).

(** *** The visitor, lines 105-197

    [dt] is the data type of the tag the visitor is instantiated for and [m]
    the caller's frame memory.  The visitor's local [flattened_buffer] starts
    empty (line 113). *)
Definition set_data_visitor (dt : DataType) (type_desc : TypeDescriptor DataType)
    (m : Memory) (tensor : NativeTensor DataType) (agg : SegmentInMemory StringPool)
    (col rows_to_write row slice_num regular_slice_size : Z) (sparsify_floats : bool)
  : Outcome :=
  let st := {| external := m; flattened_buffer := None |} in
  let done result :=
    {| out_agg := agg; out_store := st; out_gil := None; out_result := result |} in
  match dispatch dt with
  | UnknownBranch => done (StaticAssertion "Unknown data type")
  | branch =>
      if negb (bool_decide (td_data_type type_desc = nt_data_type tensor)) then
        done (Raised (CheckFailure "Type desc {} != {} tensor type"))
      else if negb (bool_decide (td_data_type type_desc = dt)) then
        done (Raised (CheckFailure "Type desc {} != {} static type"))
      else
        let c_style := is_cstyle_array (sizeof_raw dt) tensor in
        match branch with
        | SequenceBranch =>
            if is_fixed_string_type dt then
              {| out_agg := set_fixed_strings m tensor agg col rows_to_write row;
                 out_store := st;
                 out_gil := None;
                 out_result := Returned None |}
            else
              set_dynamic_strings dt c_style st tensor agg col rows_to_write row
                slice_num regular_slice_size
        | NumericBranch =>
            set_numeric dt c_style st tensor agg col rows_to_write row
              slice_num regular_slice_size sparsify_floats
        | _ => done (Returned None)
        end
  end.

(** Modelled from the spec: [TypeDescriptor::visit_tag] is not under src/.
    Section 4.4: the dispatch is on the destination's type tag, so the
    visitor runs at the tag of the descriptor's data type. *)
Definition visit_tag {A : Type} (type_desc : TypeDescriptor DataType) (visitor : DataType -> A)
  : A :=
  visitor (td_data_type type_desc).

Definition aggregator_set_data (type_desc : TypeDescriptor DataType) (m : Memory)
    (tensor : NativeTensor DataType) (agg : SegmentInMemory StringPool)
    (col rows_to_write row slice_num regular_slice_size : Z) (sparsify_floats : bool)
  : Outcome :=
  visit_tag type_desc (fun dt =>
    set_data_visitor dt type_desc m tensor agg col rows_to_write row
      slice_num regular_slice_size sparsify_floats).

(** *** What the rows of a variable-length column hold *)

(** The handle of row [s] of the slice: read in place when the view is
    C-style, gathered from row [s] of the typed view otherwise. *)
Definition row_handle (dt : DataType) (m : Memory) (tensor : NativeTensor DataType)
    (rows_to_write row slice_num regular_slice_size : Z) (s : Z) : Z :=
  if is_cstyle_array (sizeof_raw dt) tensor
  then load_word m (ptr_add (nt_data tensor) ((row + s) * SIZEOF_PTR))
  else load_word m (view_addr (typed_tensor tensor slice_num regular_slice_size rows_to_write) s).

(** The variant the decoder of the tag's flavour returns for a handle. *)
Definition decode (dt : DataType) (obj : Z) : WrapperOrError :=
  if is_utf_type dt then unicode_buffer obj else pystring_to_buffer obj false.

Definition is_text (obj : Z) : bool :=
  negb (bool_decide (obj = py_none)) && negb (is_py_nan obj).

(** A row fails when its handle is text and does not decode. *)
Definition decode_error (dt : DataType) (obj : Z) : option StringEncodingError :=
  if is_text obj then
    match decode dt obj with
    | HoldsError e => Some e
    | HoldsWrapper _ => None
    end
  else None.

(** The pool after it has interned, in row order, the text of the handles
    [objs]. *)
Definition intern_row (dt : DataType) (pool : StringPool) (obj : Z) : StringPool :=
  if is_text obj then
    match decode dt obj with
    | HoldsWrapper w => fst (pool_get pool (buffer_ w))
    | HoldsError _ => pool
    end
  else pool.

Definition intern_rows (dt : DataType) (pool : StringPool) (objs : list Z) : StringPool :=
  foldl (intern_row dt) pool objs.

(** The token a row's slot receives, [pool_before] being the pool when the
    row is reached. *)
Definition row_token (dt : DataType) (pool_before : StringPool) (obj : Z) : Z :=
  if bool_decide (obj = py_none) then not_a_string
  else if is_py_nan obj then nan_placeholder
  else match decode dt obj with
       | HoldsWrapper w => snd (pool_get pool_before (buffer_ w))
       | HoldsError _ => 0
       end.

(** The first [p] rows have been written: the pool has interned their text,
    slot [j < p] of the buffer holds row [j]'s token, and the buffer is as
    long as, and from slot [p] on the same as, the buffer [buf0] the loop
    started with.  [h j] is the handle of row [j]. *)
Definition rows_written (dt : DataType) (h : Z -> Z) (pool0 : StringPool) (buf0 : list Z)
    (p : Z) (buffer : list Z) (pool : StringPool) : Prop :=
  pool = intern_rows dt pool0 (map h (seqZ 0 p))
  /\ length buffer = length buf0
  /\ (forall j, 0 <= j < p ->
        slot_bytes buffer j
        = encode_le 8 (row_token dt (intern_rows dt pool0 (map h (seqZ 0 j))) (h j)))
  /\ drop (Z.to_nat (8 * p)) buffer = drop (Z.to_nat (8 * p)) buf0.

(** Whether a handle makes the decoder of a UTF column take the lock, and
    the guard after the handles [objs] have gone through the decoder. *)
Definition takes_lock (dt : DataType) (obj : Z) : bool :=
  is_text obj && is_utf_type dt && needs_runtime_decoding obj.

Definition lock_after (dt : DataType) (objs : list Z) : option ScopedGILLock :=
  if existsb (takes_lock dt) objs then Some GilHeld else None.

(** [ptr_data] after [k] increments. *)
Definition advanced (p : Ptr) (k : nat) : Ptr :=
  Nat.iter k (fun q => ptr_advance q 1) p.

End SetData.

Arguments Outcome : clear implicits.
Arguments LoopState : clear implicits.
Arguments FixedLoop : clear implicits.

(** ** Instances of the interfaces *)

Module Instances.

(** Modelled from the spec: the closed enumeration of type tags
    ([entity/types.hpp] is not under src/).  Glossary: numeric kinds,
    boolean, fixed and variable string, empty. *)
Inductive DataType : Type :=
  | UINT8 | UINT16 | UINT32 | UINT64
  | INT8 | INT16 | INT32 | INT64
  | FLOAT32 | FLOAT64
  | BOOL8
  | NANOSECONDS_UTC64
  | ASCII_FIXED64 | ASCII_DYNAMIC64
  | UTF_FIXED64 | UTF_DYNAMIC64
  | EMPTYVAL.

#[global] Instance DataType_eq_dec : EqDecision DataType.
Proof. solve_decision. Defined.

Definition all_tags : list DataType :=
  [UINT8; UINT16; UINT32; UINT64; INT8; INT16; INT32; INT64; FLOAT32; FLOAT64;
   BOOL8; NANOSECONDS_UTC64; ASCII_FIXED64; ASCII_DYNAMIC64; UTF_FIXED64;
   UTF_DYNAMIC64; EMPTYVAL].

Definition tag_is_sequence (dt : DataType) : bool :=
  match dt with
  | ASCII_FIXED64 | ASCII_DYNAMIC64 | UTF_FIXED64 | UTF_DYNAMIC64 => true
  | _ => false
  end.

Definition tag_is_fixed_string (dt : DataType) : bool :=
  match dt with
  | ASCII_FIXED64 | UTF_FIXED64 => true
  | _ => false
  end.

Definition tag_is_utf (dt : DataType) : bool :=
  match dt with
  | UTF_FIXED64 | UTF_DYNAMIC64 => true
  | _ => false
  end.

Definition tag_is_floating_point (dt : DataType) : bool :=
  match dt with
  | FLOAT32 | FLOAT64 => true
  | _ => false
  end.

Definition tag_is_numeric (dt : DataType) : bool :=
  match dt with
  | UINT8 | UINT16 | UINT32 | UINT64 | INT8 | INT16 | INT32 | INT64
  | FLOAT32 | FLOAT64 | NANOSECONDS_UTC64 => true
  | _ => false
  end.

Definition tag_is_bool (dt : DataType) : bool :=
  match dt with
  | BOOL8 => true
  | _ => false
  end.

Definition tag_is_empty (dt : DataType) : bool :=
  match dt with
  | EMPTYVAL => true
  | _ => false
  end.

Definition tag_sizeof (dt : DataType) : Z :=
  match dt with
  | UINT8 | INT8 | BOOL8 => 1
  | UINT16 | INT16 => 2
  | UINT32 | INT32 | FLOAT32 => 4
  | _ => 8
  end.

#[global] Instance tag_traits : TypeTraits DataType := {|
  is_sequence_type := tag_is_sequence;
  is_fixed_string_type := tag_is_fixed_string;
  is_utf_type := tag_is_utf;
  is_numeric_type := tag_is_numeric;
  is_bool_type := tag_is_bool;
  is_floating_point_type := tag_is_floating_point;
  is_empty_type := tag_is_empty;
  sizeof_raw := tag_sizeof
|}.

(** Modelled from the spec: the objects a text column's handles refer to.
    Section 6: the designated absent handle, the not-a-number marker usable
    in a text slot, or text that decodes to bytes ([compact] when it is
    already plain ASCII/UTF-8) or fails to. *)
Inductive PyObject : Type :=
  | PyNone
  | PyFloatNaN
  | PyText (utf8 : list Z) (compact : bool)
  | PyMalformed.

Definition heap_decode (heap : Z -> PyObject) (obj : Z) : WrapperOrError :=
  match heap obj with
  | PyText utf8 _ => HoldsWrapper {| buffer_ := utf8 |}
  | _ => HoldsError {| error_message_ := "cannot decode"; row_index_in_slice_ := 0 |}
  end.

(** The runtime whose objects live at the addresses [heap] gives, with the
    [None] singleton at [none_ptr]. *)
Definition heap_runtime (none_ptr : Z) (heap : Z -> PyObject) : PythonRuntime := {|
  py_none := none_ptr;
  is_py_nan := fun obj => match heap obj with PyFloatNaN => true | _ => false end;
  pystring_to_buffer := fun obj _ => heap_decode heap obj;
  unicode_buffer := heap_decode heap;
  needs_runtime_decoding :=
    fun obj => match heap obj with PyText _ compact => negb compact | _ => false end
|}.

(** Modelled from the spec: a string pool.  Section 3: unique contents with
    a stable token each, the token of a content being given at its first
    insertion, and two reserved tokens that no content receives.  Section
    4.2: resolving fails for an offset that no content has received, the two
    reserved tokens among them. *)
Abbreviation ListPool := (list (list Z)).

Fixpoint find_entry (s : list Z) (entries : ListPool) (i : Z) : option Z :=
  match entries with
  | [] => None
  | e :: es => if bool_decide (e = s) then Some i else find_entry s es (i + 1)
  end.

Definition list_pool_get (pool : ListPool) (s : list Z) : ListPool * Z :=
  match find_entry s pool 0 with
  | Some i => (pool, i)
  | None => (pool ++ [s], Z.of_nat (length pool))
  end.

#[global] Instance list_pool : StringPoolOps ListPool := {|
  pool_get := list_pool_get;
  get_string_from_pool :=
    fun offset pool =>
      if (0 <=? offset) && (offset <? Z.of_nat (length pool))
      then pool !! Z.to_nat offset
      else None;
  not_a_string := 2 ^ 63 - 2;
  nan_placeholder := 2 ^ 63 - 3
|}.

(** *** An aggregator over the segment

    The aggregator's four methods are not under src/; each is modelled from
    Section 4.4 of the specification. *)

(** [buf], grown with zero bytes to hold at least [n] bytes. *)
Definition ensure_bytes (buf : ChunkedBuffer) (n : nat) : ChunkedBuffer :=
  buf ++ replicate (n - length buf)%nat 0.

Definition update_column {StringPool : Type} (seg : SegmentInMemory StringPool) (col : Z)
    (c : Column) : SegmentInMemory StringPool :=
  {| columns := <[col := c]> (columns seg); string_pool := string_pool seg |}.

(** Modelled from the spec: [set_string_at] is not under src/.  Section
    4.4: each row's characters are written directly into the column's
    per-row string slot, without going through the string pool; fixed-width
    storage does not deduplicate.  The string slot of row [row] is the
    [size] bytes from byte [row * size] of the column's buffer, which grows
    to hold it. *)
Definition store_string_at {StringPool : Type}
    (m : Memory) (seg : SegmentInMemory StringPool) (col row val size : Z)
  : SegmentInMemory StringPool :=
  let c := column seg col in
  let buf := ensure_bytes (col_buffer c) (Z.to_nat (size * (row + 1))) in
  update_column seg col
    (with_buffer c (write_bytes buf (Z.to_nat (size * row))
                      (load_bytes m val (Z.to_nat size)))).

(** Modelled from the spec: [set_external_block] is not under src/.  Section
    4.4: the external memory is referenced directly, with no copy; the
    column records it as a borrowed block. *)
Definition borrow_block {StringPool : Type} (sizeof_T : Z) (m : Memory)
    (seg : SegmentInMemory StringPool) (col ptr rows : Z) : SegmentInMemory StringPool :=
  let c := column seg col in
  update_column seg col
    (mkColumn (col_buffer c) (col_external c ++ [(ptr, rows * sizeof_T)]) (col_sparse_map c)).

(** Modelled from the spec: [set_array] is not under src/.  Section 4.4:
    the view is flattened into a contiguous buffer of the raw type that the
    column owns. *)
Definition flatten_array {StringPool : Type} (sizeof_T : Z) (m : Memory)
    (seg : SegmentInMemory StringPool) (col : Z) (t : TypedTensor)
  : SegmentInMemory StringPool :=
  let c := column seg col in
  update_column seg col
    (with_buffer c (col_buffer c ++ flatten m sizeof_T t (presized (tt_rows t * sizeof_T)))).

(** An IEEE 754 value of 4 or 8 bytes is NaN when its exponent bits are all
    set and its fraction is not zero. *)
Definition is_nan_bytes (sizeof_T : Z) (bs : list Z) : bool :=
  let v := decode_le bs in
  if sizeof_T =? 8 then ((v / 2 ^ 52) mod 2 ^ 11 =? 2047) && negb (v mod 2 ^ 52 =? 0)
  else ((v / 2 ^ 23) mod 2 ^ 8 =? 255) && negb (v mod 2 ^ 23 =? 0).

(** Modelled from the spec: [set_sparse_block] is not under src/.  Section
    4.4: the sparse encoding stores the values that are not NaN and a
    presence indicator per row. *)
Definition sparse_block {StringPool : Type} (sizeof_T : Z) (m : Memory)
    (seg : SegmentInMemory StringPool) (col ptr rows : Z) : SegmentInMemory StringPool :=
  let c := column seg col in
  let values :=
    map (fun i => load_bytes m (ptr_add ptr (i * sizeof_T)) (Z.to_nat sizeof_T))
        (seqZ 0 rows) in
  let present := map (fun bs => negb (is_nan_bytes sizeof_T bs)) values in
  let dense := concat (filter (fun bs => is_nan_bytes sizeof_T bs = false) values) in
  update_column seg col
    (mkColumn (col_buffer c ++ dense) (col_external c)
       (Some (default [] (col_sparse_map c) ++ present))).

#[global] Instance segment_aggregator {StringPool : Type}
  : Aggregator StringPool := {|
  set_string_at := store_string_at;
  set_sparse_block := sparse_block;
  set_external_block := borrow_block;
  set_array := flatten_array
|}.

(** *** A small frame *)

(** Frame memory holding [bytes] from address [base] on, zero elsewhere. *)
Definition memory_of (base : Z) (bytes : list Z) : Memory :=
  fun a => if (base <=? a) then default 0 (bytes !! Z.to_nat (a - base)) else 0.

Definition words (vs : list Z) : list Z := concat (map (encode_le 8) vs).

Definition empty_segment : SegmentInMemory ListPool :=
  {| columns := ∅; string_pool := [] |}.

(** A runtime with four objects besides [None] (at 1000) and a NaN (at
    1008): the texts "a" (2000) and "bb" (2008), already plain UTF-8; the
    text "e-acute" (2016), which needs runtime-level decoding; and anything
    else, which does not decode. *)
Definition example_heap (obj : Z) : PyObject :=
  if obj =? 1000 then PyNone
  else if obj =? 1008 then PyFloatNaN
  else if obj =? 2000 then PyText [97] true
  else if obj =? 2008 then PyText [98; 98] true
  else if obj =? 2016 then PyText [195; 169] false
  else PyMalformed.

Definition example_runtime : PythonRuntime := heap_runtime 1000 example_heap.

(** A contiguous column of five handles: "a", None, "bb", NaN, "a". *)
Definition text_memory : Memory := memory_of 64 (words [2000; 1000; 2008; 1008; 2000]).
Definition text_tensor : NativeTensor DataType :=
  {| nt_data_type := UTF_DYNAMIC64; nt_data := 64; nt_strides0 := 8; nt_elsize := 8 |}.

(** A column of four handles, sixteen bytes apart: "a", "e-acute", a
    malformed text, "bb". *)
Definition strided_memory : Memory :=
  memory_of 64 (words [2000; 0; 2016; 0; 3000; 0; 2008; 0]).
Definition strided_tensor : NativeTensor DataType :=
  {| nt_data_type := UTF_DYNAMIC64; nt_data := 64; nt_strides0 := 16; nt_elsize := 8 |}.

(** Three fixed-width strings of two characters: "ab", "ab", "cd". *)
Definition fixed_memory : Memory := memory_of 64 [97; 98; 97; 98; 99; 100].
Definition fixed_tensor : NativeTensor DataType :=
  {| nt_data_type := ASCII_FIXED64; nt_data := 64; nt_strides0 := 2; nt_elsize := 2 |}.

(** The same bytes as a contiguous column of [INT32] and as a column of
    [INT16] whose rows are four bytes apart. *)
Definition int32_tensor : NativeTensor DataType :=
  {| nt_data_type := INT32; nt_data := 64; nt_strides0 := 4; nt_elsize := 4 |}.
Definition int16_tensor : NativeTensor DataType :=
  {| nt_data_type := INT16; nt_data := 64; nt_strides0 := 4; nt_elsize := 2 |}.

(** The five rows of the specification's example: "a", no value, "bb",
    not-a-number, "a".  The two texts get the tokens 0 and 1. *)
Definition example_offsets : list Z :=
  words [0; not_a_string; 1; nan_placeholder; 0].

Definition example_context_row : PipelineContextRow (list (list Z)) :=
  {| row_range := (0, 5); context_string_pool := [[97]; [98; 98]] |}.

End Instances.

(** ** Further notions and frames for Part II *)

Section Texts.

Context {DataType : Type} `{!TypeTraits DataType}.
Context `{!PythonRuntime}.

(** The decoded bytes of a handle that is text and decodes. *)
Definition row_text (dt : DataType) (obj : Z) : option (list Z) :=
  if is_text obj then
    match decode dt obj with
    | HoldsWrapper w => Some (buffer_ w)
    | HoldsError _ => None
    end
  else None.

(** The byte lengths of the texts among the handles [objs], in row order. *)
Definition text_lengths (dt : DataType) (objs : list Z) : list Z :=
  map (fun bytes => Z.of_nat (length bytes)) (omap (row_text dt) objs).

End Texts.

(** The tokens a [ListPool] has given out are the positions of its entries. *)
Definition list_pool_issued (pool : list (list Z)) (offset : Z) : Prop :=
  0 <= offset < Z.of_nat (length pool).

(** An offset buffer of [n] rows that all hold [not_a_string]. *)
Definition sentinel_rows {StringPool : Type} `{!StringPoolOps StringPool} (n : nat)
  : list Z :=
  concat (replicate n (encode_le 8 not_a_string)).

Module Frames.

Import Instances.

(** The first three handles of [strided_memory], packed one after the
    other and followed by [None], as a UTF column and as a column of raw
    byte strings. *)
Definition packed_memory : Memory := memory_of 128 (words [2000; 2016; 3000; 1000]).
Definition packed_tensor : NativeTensor DataType :=
  {| nt_data_type := UTF_DYNAMIC64; nt_data := 128; nt_strides0 := 8; nt_elsize := 8 |}.
Definition ascii_tensor : NativeTensor DataType :=
  {| nt_data_type := ASCII_DYNAMIC64; nt_data := 128; nt_strides0 := 8; nt_elsize := 8 |}.

(** A segment whose column 0 already owns three bytes and whose column 1
    borrows a block. *)
Definition used_segment : SegmentInMemory (list (list Z)) :=
  {| columns := <[1 := mkColumn [] [(64, 4)] None]> (<[0 := mkColumn [7; 7; 7] [] None]> ∅);
     string_pool := [[97]] |}.

(** The offset stored for each row of the specification's example and the
    pooled string of the rows that hold one. *)
Definition example_stored (row : Z) : Z :=
  default 0 (get_offset_string_at row example_offsets).
Definition example_text (row : Z) : list Z :=
  if row =? 2 then [98; 98] else [97].

(** The offsets of the specification's example, followed by a slot past the
    slice that holds a valid token of a longer string. *)
Definition trailing_offsets : list Z := example_offsets ++ encode_le 8 2.
Definition trailing_context_row : PipelineContextRow (list (list Z)) :=
  {| row_range := (0, 5); context_string_pool := [[97]; [98; 98]; [99; 99; 99]] |}.

End Frames.

(** * Part II: properties *)

(** ** Bytes, words and pointers *)

Lemma length_encode_le n v : length (encode_le n v) = n.
Proof.
  revert v. induction n as [|n IH]; intros v; simpl; [done | by rewrite IH].
Qed.

Lemma decode_encode_le n v : decode_le (encode_le n v) = v mod 256 ^ Z.of_nat n.
Proof.
  revert v. induction n as [|n IH]; intros v.
  - simpl. by rewrite Z.mod_1_r.
  - cbn [encode_le decode_le]. rewrite IH.
    replace (256 ^ Z.of_nat (S n)) with (256 * 256 ^ Z.of_nat n)
      by (rewrite Nat2Z.inj_succ, Z.pow_succ_r; lia).
    rewrite Z.rem_mul_r; [done | lia | apply Z.pow_pos_nonneg; lia].
Qed.

Lemma decode_encode_word v : decode_le (encode_le 8 v) = wrap_size v.
Proof. by rewrite decode_encode_le. Qed.

Lemma wrap_size_small z : 0 <= z < SIZE_MOD -> wrap_size z = z.
Proof. intros. unfold wrap_size. by apply Z.mod_small. Qed.

Lemma ptr_add_ptr_add p a b : ptr_add (ptr_add p a) b = ptr_add p (a + b).
Proof.
  unfold ptr_add, wrap_size.
  rewrite Z.add_mod_idemp_l by (unfold SIZE_MOD; lia).
  f_equal. lia.
Qed.

Lemma length_load_bytes m a n : length (load_bytes m a n) = n.
Proof. unfold load_bytes. by rewrite length_map, length_seq. Qed.

(** Two folds over the same range agree when their steps agree on it. *)
Lemma foldl_ext_seqZ {A : Type} (f g : A -> Z -> A) (a : A) (n : Z) :
  (forall b s, 0 <= s < n -> f b s = g b s) ->
  foldl f a (seqZ 0 n) = foldl g a (seqZ 0 n).
Proof.
  intros Hfg.
  destruct (decide (0 <= n)) as [Hn | Hn]; [| by rewrite !seqZ_nil by lia].
  rewrite <- (Z2Nat.id n) by done.
  assert (Hle : Z.of_nat (Z.to_nat n) <= n) by lia. revert Hle.
  generalize (Z.to_nat n) as k. intros k. revert a.
  induction k as [|k IH]; intros a Hle; [done |].
  rewrite seqZ_S, !foldl_app. cbn [foldl]. rewrite IH by lia. apply Hfg. lia.
Qed.

(** ** Stores through a pointer into a buffer *)

Lemma length_write_bytes bs : forall buf off,
  length (write_bytes buf off bs) = length buf.
Proof.
  induction bs as [|b bs IH]; intros buf off; cbn [write_bytes]; [done |].
  by rewrite IH, length_insert.
Qed.

Lemma lookup_write_bytes_outside bs : forall buf off i,
  (i < off \/ off + length bs <= i)%nat ->
  write_bytes buf off bs !! i = buf !! i.
Proof.
  induction bs as [|b bs IH]; intros buf off i Hi; cbn [write_bytes length] in *; [done |].
  rewrite IH by lia. apply list_lookup_insert_ne. lia.
Qed.

Lemma lookup_write_bytes_inside bs : forall buf off i,
  (off <= i < off + length bs)%nat ->
  (off + length bs <= length buf)%nat ->
  write_bytes buf off bs !! i = bs !! (i - off)%nat.
Proof.
  induction bs as [|b bs IH]; intros buf off i Hi Hlen; cbn [write_bytes length] in *; [lia |].
  destruct (decide (i = off)) as [-> | Hne].
  - rewrite lookup_write_bytes_outside by lia.
    rewrite list_lookup_insert_eq by lia.
    by replace (off - off)%nat with 0%nat by lia.
  - rewrite IH by (rewrite ?length_insert; lia).
    by replace (i - off)%nat with (S (i - S off)) by lia.
Qed.

Lemma lookup_read_bytes buf off n i :
  read_bytes buf off n !! i = if decide (i < n)%nat then buf !! (off + i)%nat else None.
Proof. unfold read_bytes. rewrite lookup_take. by rewrite lookup_drop. Qed.

(** Reading back the bytes just stored. *)
Lemma read_write_bytes_same buf off bs :
  (off + length bs <= length buf)%nat ->
  read_bytes (write_bytes buf off bs) off (length bs) = bs.
Proof.
  intros Hlen. apply list_eq; intros i. rewrite lookup_read_bytes.
  case_decide as Hi.
  - rewrite lookup_write_bytes_inside by lia. f_equal. lia.
  - symmetry. apply lookup_ge_None_2. lia.
Qed.

(** A store leaves the bytes of every disjoint range alone. *)
Lemma read_write_bytes_disjoint buf off bs off' n :
  (off' + n <= off \/ off + length bs <= off')%nat ->
  read_bytes (write_bytes buf off bs) off' n = read_bytes buf off' n.
Proof.
  intros Hd. apply list_eq; intros i. rewrite !lookup_read_bytes.
  case_decide; [| done]. apply lookup_write_bytes_outside. lia.
Qed.

Lemma slot_bytes_write_word_same buf i v :
  0 <= i -> 8 * i + 8 <= Z.of_nat (length buf) ->
  slot_bytes (write_word buf i v) i = encode_le 8 v.
Proof.
  intros Hi Hlen. unfold slot_bytes, write_word.
  pose proof (read_write_bytes_same buf (Z.to_nat (8 * i)) (encode_le 8 v)) as Hrw.
  rewrite length_encode_le in Hrw. apply Hrw. lia.
Qed.

Lemma slot_bytes_write_word_other buf i j v :
  0 <= i -> 0 <= j -> i <> j ->
  slot_bytes (write_word buf i v) j = slot_bytes buf j.
Proof.
  intros Hi Hj Hne. unfold slot_bytes, write_word.
  apply read_write_bytes_disjoint. rewrite length_encode_le. lia.
Qed.

Lemma length_write_word buf i v : length (write_word buf i v) = length buf.
Proof. apply length_write_bytes. Qed.

(** A word store leaves every byte past its slot alone. *)
Lemma drop_write_word buf i v n :
  0 <= i -> (Z.to_nat (8 * i + 8) <= n)%nat ->
  drop n (write_word buf i v) = drop n buf.
Proof.
  intros Hi Hn. apply list_eq; intros k. rewrite !lookup_drop.
  apply lookup_write_bytes_outside. rewrite length_encode_le. lia.
Qed.

(** ** [flatten_tensor] *)

Section FlattenFacts.

Context {DataType : Type}.
Implicit Types (t : TypedTensor) (tensor : NativeTensor DataType).

Lemma length_flatten_rows m sz t k dst :
  length (flatten_rows m sz t k dst) = length dst.
Proof.
  induction k as [|k IH]; simpl; [done |]. by rewrite length_write_bytes.
Qed.

(** After [k] rows, element [i < k] of the destination is row [i] of the
    view. *)
Lemma flatten_rows_element m sz t k dst i :
  0 < sz ->
  Z.of_nat k * sz <= Z.of_nat (length dst) ->
  0 <= i < Z.of_nat k ->
  read_bytes (flatten_rows m sz t k dst) (Z.to_nat (i * sz)) (Z.to_nat sz)
  = load_bytes m (view_addr t i) (Z.to_nat sz).
Proof.
  intros Hsz. induction k as [|k IH]; intros Hlen Hi; [lia |].
  cbn [flatten_rows].
  destruct (decide (i = Z.of_nat k)) as [-> | Hne].
  - pose proof (read_write_bytes_same (flatten_rows m sz t k dst)
                  (Z.to_nat (Z.of_nat k * sz))
                  (load_bytes m (view_addr t (Z.of_nat k)) (Z.to_nat sz))) as Hrw.
    rewrite length_load_bytes, length_flatten_rows in Hrw. apply Hrw. nia.
  - rewrite read_write_bytes_disjoint.
    + apply IH; nia.
    + rewrite length_load_bytes. left. nia.
Qed.

End FlattenFacts.

(** C5.  [flatten_tensor] fills a new buffer of exactly
    [rows_to_write * sizeof(RawType)] bytes with the elements of the source
    view, gathered in row order by the view's stride; it leaves the frame
    memory as it was and returns a pointer to the start of the new buffer,
    not into the frame. *)
Theorem flatten_tensor_gathers {DataType : Type} (sizeof_raw : Z) (st : Store)
    (rows_to_write : Z) (tensor : NativeTensor DataType) (slice_num regular_slice_size : Z) :
  0 <= rows_to_write ->
  0 < sizeof_raw ->
  rows_to_write * sizeof_raw < SIZE_MOD ->
  let view := typed_tensor tensor slice_num regular_slice_size rows_to_write in
  let result := flatten_tensor sizeof_raw st rows_to_write tensor slice_num regular_slice_size in
  exists buf,
    flattened_buffer (fst result) = Some buf
    /\ Z.of_nat (length buf) = rows_to_write * sizeof_raw
    /\ (forall i, 0 <= i < rows_to_write ->
          read_bytes buf (Z.to_nat (i * sizeof_raw)) (Z.to_nat sizeof_raw)
          = load_bytes (external st) (ptr_add (tt_data view) (i * nt_strides0 tensor))
              (Z.to_nat sizeof_raw))
    /\ external (fst result) = external st
    /\ snd result = FlattenedPtr 0.
Proof.
  intros Hrows Hsz Hfit view result.
  assert (Hsize : size_mul rows_to_write sizeof_raw = rows_to_write * sizeof_raw).
  { unfold size_mul. apply wrap_size_small. nia. }
  eexists. split; [reflexivity |]. cbn [fst snd flatten_tensor].
  split; [| split; [| split; reflexivity]].
  - unfold flatten. rewrite length_flatten_rows. unfold presized.
    rewrite length_replicate, Hsize. nia.
  - intros i Hi. unfold flatten. cbn [tt_rows typed_tensor].
    apply (flatten_rows_element (external st) sizeof_raw view); [done | | lia].
    unfold presized. rewrite length_replicate, Hsize. nia.
Qed.
(** ** [get_max_string_size] *)

Section MaxStringSizeFacts.

Context {StringPool : Type} `{!StringPoolOps StringPool}.
Implicit Types (pool : StringPool) (src : list Z) (stored : Z -> Z) (text : Z -> list Z).

Lemma max_of_nonneg zs : 0 <= max_of zs.
Proof. induction zs as [|z zs IH]; simpl; lia. Qed.

Lemma foldl_max_step stored text rows : forall max_length,
  0 <= max_length ->
  foldl (max_step stored text) max_length rows
  = Z.max max_length (max_of (row_lengths stored text rows)).
Proof.
  unfold row_lengths.
  induction rows as [|r rs IH]; intros acc Hacc; cbn [foldl].
  - simpl. lia.
  - rewrite IH by (unfold max_step; destruct (is_sentinel (stored r)); lia).
    unfold max_step. rewrite filter_cons.
    destruct (is_sentinel (stored r)) eqn:Hr.
    + rewrite decide_False by done. done.
    + rewrite decide_True by done. cbn [map fmap list_fmap max_of foldr].
      fold (max_of (map (fun row => Z.of_nat (length (text row)))
                      (filter (fun row => is_sentinel (stored row) = false) rs))).
      lia.
Qed.

(** The row lookup succeeds on the rows of the slice and nowhere else. *)
Lemma first_context_row_Some (context_row : PipelineContextRow StringPool)
    first_row_in_frame offset :
  first_context_row context_row first_row_in_frame = Some offset
  <-> fst (row_range context_row) <= first_row_in_frame < snd (row_range context_row)
      /\ offset = first_row_in_frame - fst (row_range context_row).
Proof.
  unfold first_context_row. cbn zeta.
  destruct (Z.leb_spec (fst (row_range context_row)) first_row_in_frame),
    (Z.ltb_spec first_row_in_frame (snd (row_range context_row))); cbn [andb];
    split; try (intros [= <-]; lia); try (intros [? ->]; done); try (intros [? ?]; lia);
    done.
Qed.

Lemma row_range_diff_nonneg (context_row : PipelineContextRow StringPool) :
  0 <= row_range_diff context_row.
Proof.
  unfold row_range_diff.
  destruct (Z.gtb_spec (fst (row_range context_row)) (snd (row_range context_row))); lia.
Qed.

(** While the row range is shorter than [2 ^ 32] the counter does not wrap:
    if the lookups of the rows from [row] on succeed, the loop visits those
    rows in order and leaves with the running maximum. *)
Lemma max_string_size_loop_bounded pool src offset num_rows stored text :
  forall n row max_length fuel,
  (forall r, row <= r < num_rows ->
     get_offset_string_at (size_add offset r) src = Some (stored r)) ->
  (forall r, row <= r < num_rows -> is_sentinel (stored r) = false ->
     get_string_from_pool (stored r) pool = Some (text r)) ->
  0 <= row ->
  row + Z.of_nat n = num_rows ->
  num_rows < UINT_MOD ->
  (n < fuel)%nat ->
  max_string_size_loop fuel pool src offset num_rows row max_length
  = Some (Size (foldl (max_step stored text) max_length (seqZ row (Z.of_nat n)))).
Proof.
  induction n as [|n IH]; intros row acc fuel Hread Hresolve Hrow Hsum Hbound Hfuel;
    (destruct fuel as [|fuel]; [lia |]); cbn [max_string_size_loop].
  - rewrite (proj2 (Z.ltb_ge row num_rows)) by lia. done.
  - rewrite (proj2 (Z.ltb_lt row num_rows)) by lia.
    assert (Hwrap : wrap_uint (row + 1) = row + 1).
    { unfold wrap_uint. apply Z.mod_small. lia. }
    rewrite Hwrap, seqZ_cons by lia.
    replace (Z.pred (Z.of_nat (S n))) with (Z.of_nat n) by lia.
    cbn [foldl]. unfold max_step at 2.
    rewrite Hread by lia.
    pose proof (Hresolve row ltac:(lia)) as Htext. unfold is_sentinel in *.
    destruct (_ || _).
    + apply IH; try lia; intros; [apply Hread | apply Hresolve]; done || lia.
    + rewrite Htext by done.
      apply IH; try lia; intros; [apply Hread | apply Hresolve]; done || lia.
Qed.

(** From [2 ^ 32] rows on the counter wraps before it reaches [num_rows]:
    the loop is never left through its condition, so it returns no size. *)
Lemma max_string_size_loop_returns_no_size pool src offset num_rows :
  forall fuel row max_length size,
  UINT_MOD <= num_rows ->
  0 <= row < UINT_MOD ->
  max_string_size_loop fuel pool src offset num_rows row max_length <> Some (Size size).
Proof.
  induction fuel as [|fuel IH]; intros row acc size Hwide Hrow; cbn [max_string_size_loop];
    [done |].
  rewrite (proj2 (Z.ltb_lt row num_rows)) by lia.
  assert (0 <= wrap_uint (row + 1) < UINT_MOD)
    by (apply Z.mod_pos_bound; unfold UINT_MOD; lia).
  destruct (get_offset_string_at _ _) as [offset_val |]; [| done].
  destruct (_ || _); [by apply IH |].
  destruct (get_string_from_pool _ _); [by apply IH | done].
Qed.

(** When, besides, every lookup it makes succeeds, the loop condition holds
    at every test: no amount of fuel lets it end. *)
Lemma max_string_size_loop_wraps pool src offset num_rows :
  (forall row, 0 <= row < UINT_MOD ->
     exists offset_val,
       get_offset_string_at (size_add offset row) src = Some offset_val
       /\ (is_sentinel offset_val = true
           \/ is_Some (get_string_from_pool offset_val pool))) ->
  forall fuel row max_length,
  UINT_MOD <= num_rows ->
  0 <= row < UINT_MOD ->
  max_string_size_loop fuel pool src offset num_rows row max_length = None.
Proof.
  intros Hlookups.
  induction fuel as [|fuel IH]; intros row acc Hwide Hrow; cbn [max_string_size_loop];
    [done |].
  rewrite (proj2 (Z.ltb_lt row num_rows)) by lia.
  assert (0 <= wrap_uint (row + 1) < UINT_MOD)
    by (apply Z.mod_pos_bound; unfold UINT_MOD; lia).
  destruct (Hlookups row Hrow) as (offset_val & -> & Hvalue). unfold is_sentinel in Hvalue.
  destruct (_ || _); [by apply IH |].
  destruct Hvalue as [? | [str ->]]; [done | by apply IH].
Qed.

(** X1.  Let the row lookup succeed, the row range hold fewer than [2 ^ 32]
    rows, every row of the range have its slot inside the offset buffer,
    and every offset stored there that is not a sentinel resolve in the
    pool.  Then [get_max_string_size] returns the greatest length of the
    pooled strings of the rows whose offset is not a sentinel, and zero
    when there is none. *)
Lemma get_max_string_size_bounded (context_row : PipelineContextRow StringPool)
    src first_row_in_frame fuel offset stored text :
  let num_rows := row_range_diff context_row in
  first_context_row context_row first_row_in_frame = Some offset ->
  (forall row, 0 <= row < num_rows ->
     get_offset_string_at (size_add offset row) src = Some (stored row)) ->
  (forall row, 0 <= row < num_rows -> is_sentinel (stored row) = false ->
     get_string_from_pool (stored row) (context_string_pool context_row)
     = Some (text row)) ->
  num_rows < UINT_MOD ->
  (Z.to_nat num_rows < fuel)%nat ->
  get_max_string_size fuel context_row src first_row_in_frame
  = Some (Size (max_of (row_lengths stored text (seqZ 0 num_rows)))).
Proof.
  intros num_rows Hfirst Hread Hresolve Hbound Hfuel. unfold get_max_string_size.
  rewrite Hfirst. fold num_rows.
  pose proof (row_range_diff_nonneg context_row) as Hrows. fold num_rows in Hrows.
  rewrite (max_string_size_loop_bounded _ _ _ _ stored text (Z.to_nat num_rows))
    by (done || lia).
  rewrite Z2Nat.id, foldl_max_step by lia.
  pose proof (max_of_nonneg (row_lengths stored text (seqZ 0 num_rows))).
  do 2 f_equal. lia.
Qed.

(** C6.  On a slice whose row range holds [2 ^ 32] rows the 32-bit row
    counter of [get_max_string_size] wraps to zero before it reaches the
    row count.  Whatever the offset buffer and the pool are, no amount of
    fuel lets the function return a size; and when the buffer holds the
    slots of all the rows, each a sentinel or an offset that resolves, no
    lookup fails either and the function does not end at all. *)
Theorem get_max_string_size_never_returns_on_2_32_rows (fuel : nat) (pool : StringPool)
    (src : list Z) :
  let context_row := {| row_range := (0, 2 ^ 32); context_string_pool := pool |} in
  (forall size, get_max_string_size fuel context_row src 0 <> Some (Size size))
  /\ ((forall row, 0 <= row < 2 ^ 32 ->
         exists offset_val,
           get_offset_string_at row src = Some offset_val
           /\ (is_sentinel offset_val = true
               \/ is_Some (get_string_from_pool offset_val pool))) ->
      get_max_string_size fuel context_row src 0 = None).
Proof.
  intros context_row.
  assert (Hfirst : first_context_row context_row 0 = Some 0) by done.
  assert (Hdiff : row_range_diff context_row = UINT_MOD) by done.
  unfold get_max_string_size. rewrite Hfirst, Hdiff. split.
  - intros size. apply max_string_size_loop_returns_no_size; unfold UINT_MOD; lia.
  - intros Hrows. apply max_string_size_loop_wraps; try (unfold UINT_MOD; lia).
    intros row Hrow. unfold size_add. rewrite Z.add_0_l, wrap_size_small.
    + apply Hrows. unfold UINT_MOD in Hrow. lia.
    + unfold UINT_MOD, SIZE_MOD in *. lia.
Qed.

(** The rows of [sentinel_rows n] are all inside the buffer and all hold the
    sentinel. *)
Lemma slot_bytes_concat_replicate (w : list Z) : forall (i n : nat),
  length w = 8%nat ->
  (i < n)%nat ->
  read_bytes (concat (replicate n w)) (8 * i) 8 = w.
Proof.
  unfold read_bytes.
  induction i as [|i IH]; intros n Hw Hi; (destruct n as [|n]; [lia |]);
    cbn [replicate concat].
  - rewrite Nat.mul_0_r, drop_0, take_app_length'; done.
  - replace (8 * S i)%nat with (length w + 8 * i)%nat by lia.
    rewrite drop_app_add. apply IH; [done | lia].
Qed.

Lemma length_concat_replicate (w : list Z) (n : nat) :
  length (concat (replicate n w)) = (n * length w)%nat.
Proof.
  induction n as [|n IH]; cbn [replicate concat]; [done |].
  rewrite length_app, IH. lia.
Qed.

Lemma get_offset_string_at_sentinel_rows (n : nat) (row : Z) :
  0 <= not_a_string < SIZE_MOD ->
  0 <= row < Z.of_nat n ->
  get_offset_string_at row (sentinel_rows n) = Some not_a_string.
Proof.
  intros Hfits Hrow. unfold get_offset_string_at, sentinel_rows.
  rewrite length_concat_replicate, length_encode_le.
  rewrite (proj2 (Z.leb_le 0 row)) by lia.
  rewrite (proj2 (Z.leb_le (8 * row + 8) _)) by lia. cbn [andb]. f_equal.
  unfold read_word, read_word_at.
  replace (Z.to_nat (8 * row)) with (8 * Z.to_nat row)%nat by lia.
  rewrite slot_bytes_concat_replicate by (by rewrite ?length_encode_le || lia).
  rewrite decode_encode_word. by apply wrap_size_small.
Qed.

End MaxStringSizeFacts.

(** The specification's example: over the rows "a", no value, "bb",
    not-a-number, "a" the greatest length is 2, the two sentinel rows being
    skipped. *)
Lemma get_max_string_size_example :
  get_max_string_size 6 Instances.example_context_row Instances.example_offsets 0
  = Some (Size 2).
Proof.
  rewrite (get_max_string_size_bounded Instances.example_context_row
             Instances.example_offsets 0 6 0 Frames.example_stored Frames.example_text).
  - vm_compute. reflexivity.
  - vm_compute. reflexivity.
  - intros row Hrow. change (0 <= row < 5) in Hrow.
    assert (row = 0 \/ row = 1 \/ row = 2 \/ row = 3 \/ row = 4)
      as [-> | [-> | [-> | [-> | ->]]]] by lia; vm_compute; reflexivity.
  - intros row Hrow. change (0 <= row < 5) in Hrow.
    assert (row = 0 \/ row = 1 \/ row = 2 \/ row = 3 \/ row = 4)
      as [-> | [-> | [-> | [-> | ->]]]] by lia; vm_compute; done.
  - vm_compute. reflexivity.
  - vm_compute. lia.
Defined.

(** A buffer of [2 ^ 32] rows that all hold [not_a_string]: every lookup
    succeeds, and with fuel for twice as many tests as there are rows the
    loop has not ended. *)
Lemma never_returns_on_sentinel_rows :
  get_max_string_size (Z.to_nat (2 ^ 33))
    {| row_range := (0, 2 ^ 32); context_string_pool := ([] : list (list Z)) |}
    (sentinel_rows (Z.to_nat (2 ^ 32))) 0
  = None.
Proof.
  apply (proj2 (get_max_string_size_never_returns_on_2_32_rows (Z.to_nat (2 ^ 33))
                  ([] : list (list Z)) (sentinel_rows (Z.to_nat (2 ^ 32))))).
  intros row Hrow. exists not_a_string. split.
  - apply get_offset_string_at_sentinel_rows; [| lia].
    change (0 <= 2 ^ 63 - 2 < 2 ^ 64). lia.
  - left. unfold is_sentinel. by rewrite Z.eqb_refl, orb_true_r.
Defined.

(** ** [aggregator_set_data]: checks and dispatch *)

Section DispatchFacts.

Context {DataType : Type} `{!TypeTraits DataType}.
Context `{!PythonRuntime}.
Context {StringPool : Type} `{!StringPoolOps StringPool} `{!Aggregator StringPool}.

Implicit Types (dt : DataType) (type_desc : TypeDescriptor DataType) (m : Memory).
Implicit Types (tensor : NativeTensor DataType) (agg : SegmentInMemory StringPool).

(** Destructs the two [util::check] tests of lines 109-111. *)
Ltac case_checks :=
  repeat match goal with
  | |- context [bool_decide (?a = ?b)] => destruct (bool_decide_reflect (a = b))
  end; cbn [negb] in *.

Lemma dispatch_Unknown dt :
  dispatch dt = UnknownBranch <->
  is_sequence_type dt = false /\ is_numeric_type dt = false
  /\ is_bool_type dt = false /\ is_empty_type dt = false.
Proof.
  unfold dispatch.
  destruct (is_sequence_type dt), (is_numeric_type dt), (is_bool_type dt),
    (is_empty_type dt); cbn; intuition congruence.
Qed.

Lemma dispatch_cases dt :
  match dispatch dt with
  | SequenceBranch => is_sequence_type dt = true
  | NumericBranch =>
      is_sequence_type dt = false /\ is_numeric_type dt || is_bool_type dt = true
  | EmptyBranch =>
      is_sequence_type dt = false /\ is_numeric_type dt || is_bool_type dt = false
      /\ is_empty_type dt = true
  | UnknownBranch =>
      is_sequence_type dt = false /\ is_numeric_type dt || is_bool_type dt = false
      /\ is_empty_type dt = false
  end.
Proof.
  unfold dispatch.
  destruct (is_sequence_type dt), (is_numeric_type dt || is_bool_type dt),
    (is_empty_type dt); cbn; done.
Qed.

(** When both checks pass the visitor is the body of its branch. *)
Lemma set_data_visitor_checked dt type_desc m tensor agg col rows_to_write row
    slice_num regular_slice_size sparsify_floats :
  td_data_type type_desc = nt_data_type tensor ->
  td_data_type type_desc = dt ->
  set_data_visitor dt type_desc m tensor agg col rows_to_write row
    slice_num regular_slice_size sparsify_floats
  = let st := {| external := m; flattened_buffer := None |} in
    let c_style := is_cstyle_array (sizeof_raw dt) tensor in
    match dispatch dt with
    | UnknownBranch =>
        {| out_agg := agg; out_store := st; out_gil := None;
           out_result := StaticAssertion "Unknown data type" |}
    | SequenceBranch =>
        if is_fixed_string_type dt then
          {| out_agg := set_fixed_strings m tensor agg col rows_to_write row;
             out_store := st; out_gil := None; out_result := Returned None |}
        else
          set_dynamic_strings dt c_style st tensor agg col rows_to_write row
            slice_num regular_slice_size
    | NumericBranch =>
        set_numeric dt c_style st tensor agg col rows_to_write row
          slice_num regular_slice_size sparsify_floats
    | EmptyBranch =>
        {| out_agg := agg; out_store := st; out_gil := None; out_result := Returned None |}
    end.
Proof.
  intros Htensor Hstatic. unfold set_data_visitor.
  rewrite !bool_decide_eq_true_2 by done. cbn [negb].
  destruct (dispatch dt); reflexivity.
Qed.

(** C10.  A visitor that is instantiated for a tag, and so a call of
    [aggregator_set_data], raises a check failure when the descriptor's data
    type differs from the tensor's or from the tag's; the aggregator's
    segment, columns and string pool alike, is left as it was, and no buffer
    is flattened. *)
Theorem type_mismatch_is_a_check_failure dt type_desc m tensor agg col rows_to_write row
    slice_num regular_slice_size sparsify_floats :
  dispatch dt <> UnknownBranch ->
  td_data_type type_desc <> nt_data_type tensor \/ td_data_type type_desc <> dt ->
  let out := set_data_visitor dt type_desc m tensor agg col rows_to_write row
               slice_num regular_slice_size sparsify_floats in
  (exists msg, out_result out = Raised (CheckFailure msg))
  /\ out_agg out = agg
  /\ flattened_buffer (out_store out) = None
  /\ (dt = td_data_type type_desc ->
      aggregator_set_data type_desc m tensor agg col rows_to_write row
        slice_num regular_slice_size sparsify_floats = out).
Proof.
  intros Hknown Hmismatch out. subst out. unfold set_data_visitor.
  destruct (dispatch dt) eqn:Hbranch; try done; case_checks;
    try (exfalso; destruct Hmismatch; done);
    (split; [eexists; reflexivity |]); (split; [reflexivity |]);
    (split; [reflexivity |]); intros ->; unfold aggregator_set_data, visit_tag,
      set_data_visitor; rewrite Hbranch; case_checks; done.
Qed.

(** C8.  Every tag takes exactly one branch of the dispatch, and the call
    is the visitor at the tag of its descriptor.  A sequence tag is handled
    by the string branch and a numeric or boolean tag by the numeric one:
    past the two checks the call is the body of that branch, rows and all,
    and a failing check is raised, never skipped.  The empty tag writes
    nothing and, past the checks, returns the empty optional.  A tag that
    is none of these fails the static assertion, whatever the arguments. *)
Theorem dispatch_is_exhaustive dt type_desc m tensor agg col rows_to_write row
    slice_num regular_slice_size sparsify_floats :
  let st := {| external := m; flattened_buffer := None |} in
  let c_style := is_cstyle_array (sizeof_raw dt) tensor in
  let checked :=
    td_data_type type_desc = nt_data_type tensor /\ td_data_type type_desc = dt in
  let out := set_data_visitor dt type_desc m tensor agg col rows_to_write row
               slice_num regular_slice_size sparsify_floats in
  let check_fails :=
    (exists msg, out_result out = Raised (CheckFailure msg)) /\ out_agg out = agg in
  (dt = td_data_type type_desc ->
   aggregator_set_data type_desc m tensor agg col rows_to_write row
     slice_num regular_slice_size sparsify_floats = out)
  /\ match dispatch dt with
     | SequenceBranch =>
         is_sequence_type dt = true
         /\ (forall msg, out_result out <> StaticAssertion msg)
         /\ (~ checked -> check_fails)
         /\ (checked ->
             out = if is_fixed_string_type dt then
                     {| out_agg := set_fixed_strings m tensor agg col rows_to_write row;
                        out_store := st; out_gil := None; out_result := Returned None |}
                   else
                     set_dynamic_strings dt c_style st tensor agg col rows_to_write row
                       slice_num regular_slice_size)
     | NumericBranch =>
         is_sequence_type dt = false
         /\ is_numeric_type dt || is_bool_type dt = true
         /\ (forall msg, out_result out <> StaticAssertion msg)
         /\ (~ checked -> check_fails)
         /\ (checked ->
             out = set_numeric dt c_style st tensor agg col rows_to_write row
                     slice_num regular_slice_size sparsify_floats)
     | EmptyBranch =>
         is_sequence_type dt = false
         /\ is_numeric_type dt || is_bool_type dt = false
         /\ is_empty_type dt = true
         /\ out_agg out = agg
         /\ flattened_buffer (out_store out) = None
         /\ (~ checked -> check_fails)
         /\ (checked -> out_result out = Returned None)
     | UnknownBranch =>
         is_sequence_type dt = false
         /\ is_numeric_type dt || is_bool_type dt = false
         /\ is_empty_type dt = false
         /\ out_agg out = agg
         /\ flattened_buffer (out_store out) = None
         /\ out_result out = StaticAssertion "Unknown data type"
     end.
Proof.
  intros st c_style checked out check_fails. split; [by intros -> |].
  pose proof (dispatch_cases dt) as Hcases.
  assert (Hunchecked : dispatch dt <> UnknownBranch -> ~ checked -> check_fails).
  { intros Hknown Hnot. subst check_fails out. unfold set_data_visitor.
    destruct (dispatch dt); try done; case_checks;
      try (exfalso; apply Hnot; done); split; eauto. }
  assert (Hchecked : checked ->
            out = match dispatch dt with
                  | UnknownBranch =>
                      {| out_agg := agg; out_store := st; out_gil := None;
                         out_result := StaticAssertion "Unknown data type" |}
                  | SequenceBranch =>
                      if is_fixed_string_type dt then
                        {| out_agg := set_fixed_strings m tensor agg col rows_to_write row;
                           out_store := st; out_gil := None; out_result := Returned None |}
                      else
                        set_dynamic_strings dt c_style st tensor agg col rows_to_write row
                          slice_num regular_slice_size
                  | NumericBranch =>
                      set_numeric dt c_style st tensor agg col rows_to_write row
                        slice_num regular_slice_size sparsify_floats
                  | EmptyBranch =>
                      {| out_agg := agg; out_store := st; out_gil := None;
                         out_result := Returned None |}
                  end).
  { intros [Htensor Hstatic]. subst out. by rewrite set_data_visitor_checked. }
  assert (Hruns : dispatch dt <> UnknownBranch ->
            forall msg, out_result out <> StaticAssertion msg).
  { intros Hknown msg. subst out. unfold set_data_visitor.
    destruct (dispatch dt); try done; case_checks; try done.
    - destruct (is_fixed_string_type dt); [done |].
      unfold set_dynamic_strings.
      destruct (string_loop_start _ _ _ _ _ _ _ _ _) as [st' ls0].
      destruct (string_rows _ _ _ _) as [ls err]. done.
    - unfold set_numeric.
      destruct sparsify_floats, (is_floating_point_type dt),
        (is_cstyle_array (sizeof_raw dt) tensor); done. }
  destruct (dispatch dt) eqn:Hbranch.
  - split; [done |]. split; [by apply Hruns |]. split; [by apply Hunchecked | done].
  - destruct Hcases as [Hseq Hnum]. do 2 (split; [done |]).
    split; [by apply Hruns |]. split; [by apply Hunchecked | done].
  - destruct Hcases as (Hseq & Hnum & Hempty). do 3 (split; [done |]).
    assert (Hsame : out_agg out = agg /\ flattened_buffer (out_store out) = None).
    { subst out. unfold set_data_visitor. rewrite Hbranch. by case_checks. }
    destruct Hsame as [Hagg Hflat]. do 2 (split; [done |]).
    split; [by apply Hunchecked |]. intros Hok. by rewrite (Hchecked Hok).
  - destruct Hcases as (Hseq & Hnum & Hempty). do 3 (split; [done |]).
    subst out. unfold set_data_visitor. rewrite Hbranch. done.
Qed.

(** C3.  With [sparsify_floats] set, a numeric or boolean tag that is not a
    floating-point tag makes the call raise, and once the tensor's type
    agrees the error is the runtime error of line 176; the segment is left
    as it was.  A floating-point tag hands the rows to [set_sparse_block]. *)
Theorem sparsify_floats_needs_a_floating_point_tag type_desc m tensor agg col
    rows_to_write row slice_num regular_slice_size :
  let dt := td_data_type type_desc in
  dispatch dt = NumericBranch ->
  let out := aggregator_set_data type_desc m tensor agg col rows_to_write row
               slice_num regular_slice_size true in
  if is_floating_point_type dt then
    dt = nt_data_type tensor ->
    out_result out = Returned None
    /\ out_agg out = set_sparse_block (sizeof_raw dt) m agg col
                       (ptr_cast (sizeof_raw dt) tensor row) rows_to_write
  else
    out_agg out = agg
    /\ flattened_buffer (out_store out) = None
    /\ (exists e, out_result out = Raised e)
    /\ (dt = nt_data_type tensor ->
        out_result out
        = Raised (RuntimeError "sparse currently supported for floating point columns only.")).
Proof.
  intros dt Hbranch out. subst out dt.
  unfold aggregator_set_data, visit_tag, set_data_visitor. rewrite Hbranch.
  unfold set_numeric.
  destruct (is_floating_point_type (td_data_type type_desc)); case_checks; cbn.
  all: try (intros; done).
  all: try (intros; split; done).
  all: do 2 (split; [done |]); (split; [eauto |]); intros; done.
Qed.

End DispatchFacts.

(** ** Fixed-width strings *)

Section FixedStringFacts.

Context {DataType : Type} `{!TypeTraits DataType}.
Context `{!PythonRuntime}.
Context {StringPool : Type} `{!StringPoolOps StringPool} `{!Aggregator StringPool}.

Implicit Types (agg : SegmentInMemory StringPool) (m : Memory).

(** After [k] rounds the loop has called [set_string_at] for the rows
    [0 .. k-1], in that order, each with the address of its characters. *)
Lemma fixed_string_rows_spec m col str_stride str_len data off agg k :
  let fl := fixed_string_rows m col str_stride str_len k
              {| fl_agg := agg; fl_s := 0; fl_char_data := ptr_add data off |} in
  fl_s fl = Z.of_nat k
  /\ fl_char_data fl = ptr_add data (off + Z.of_nat k * str_stride)
  /\ fl_agg fl
     = foldl (fun a s => set_string_at m a col s
                           (ptr_add data (off + s * str_stride)) str_len)
         agg (seqZ 0 (Z.of_nat k)).
Proof.
  induction k as [|k IH]; cbn zeta.
  - cbn [fixed_string_rows fl_s fl_char_data fl_agg Z.of_nat].
    rewrite seqZ_nil by lia. split; [done |]. split; [| done]. f_equal; lia.
  - cbn [fixed_string_rows]. cbn zeta in IH. destruct IH as (Hs & Hptr & Hagg).
    cbn [fl_s fl_char_data fl_agg]. rewrite Hs, Hptr, Hagg.
    split; [lia |]. split.
    + rewrite ptr_add_ptr_add. f_equal. lia.
    + rewrite seqZ_S, foldl_app. cbn [foldl]. reflexivity.
Qed.

(** The loop of lines 123-125 as the calls it makes. *)
Lemma set_fixed_strings_calls m (tensor : NativeTensor DataType) agg col rows_to_write row :
  set_fixed_strings m tensor agg col rows_to_write row
  = foldl (fun a s => set_string_at m a col s
                        (ptr_add (nt_data tensor) ((row + s) * nt_strides0 tensor))
                        (nt_elsize tensor))
      agg (seqZ 0 rows_to_write).
Proof.
  unfold set_fixed_strings.
  pose proof (fixed_string_rows_spec m col (nt_strides0 tensor) (nt_elsize tensor)
                (nt_data tensor) (row * nt_strides0 tensor) agg
                (Z.to_nat rows_to_write)) as Hspec.
  cbn zeta in Hspec. destruct Hspec as (_ & _ & ->).
  destruct (decide (0 <= rows_to_write)) as [Hrows | Hrows].
  - rewrite Z2Nat.id by done. apply foldl_ext_seqZ. intros a s Hs. f_equal. f_equal. lia.
  - replace (Z.to_nat rows_to_write) with 0%nat by lia.
    rewrite !seqZ_nil by lia. done.
Qed.

(** X12.  On a fixed-width string tag [aggregator_set_data] hands each of
    the [rows_to_write] rows to [set_string_at], in row order: row [s] with
    the [elsize] bytes found [row + s] strides into the source.  It
    flattens nothing and returns the empty optional; what becomes of the
    segment is what the aggregator's [set_string_at] makes of it. *)
Theorem fixed_width_rows_go_through_set_string_at (type_desc : TypeDescriptor DataType) m
    (tensor : NativeTensor DataType) agg col rows_to_write row
    slice_num regular_slice_size sparsify_floats :
  let dt := td_data_type type_desc in
  dispatch dt = SequenceBranch ->
  is_fixed_string_type dt = true ->
  dt = nt_data_type tensor ->
  let out := aggregator_set_data type_desc m tensor agg col rows_to_write row
               slice_num regular_slice_size sparsify_floats in
  out_result out = Returned None
  /\ flattened_buffer (out_store out) = None
  /\ out_agg out
     = foldl (fun a s => set_string_at m a col s
                           (ptr_add (nt_data tensor) ((row + s) * nt_strides0 tensor))
                           (nt_elsize tensor))
         agg (seqZ 0 rows_to_write).
Proof.
  intros dt Hbranch Hfixed Htensor out. subst out.
  unfold aggregator_set_data, visit_tag.
  rewrite set_data_visitor_checked by done. cbn zeta. fold dt.
  rewrite Hbranch, Hfixed. cbn [out_result out_store out_agg flattened_buffer].
  split; [done |]. split; [done |]. apply set_fixed_strings_calls.
Qed.

End FixedStringFacts.

(** *** Fixed-width rows in the segment *)

Lemma read_bytes_ensure_bytes (buf : list Z) (n off len : nat) :
  (off + len <= length buf)%nat ->
  read_bytes (Instances.ensure_bytes buf n) off len = read_bytes buf off len.
Proof.
  intros Hlen. unfold read_bytes, Instances.ensure_bytes.
  rewrite drop_app_le by lia. apply take_app_le. rewrite length_drop. lia.
Qed.

Lemma length_ensure_bytes (buf : list Z) (n : nat) :
  (n <= length (Instances.ensure_bytes buf n))%nat.
Proof. unfold Instances.ensure_bytes. rewrite length_app, length_replicate. lia. Qed.

Section FixedStringStorage.

Context {DataType : Type} `{!TypeTraits DataType}.
Context `{!PythonRuntime}.
Context {StringPool : Type} `{!StringPoolOps StringPool}.

Implicit Types (agg : SegmentInMemory StringPool) (m : Memory).

(** After the rows [0 .. k-1] have gone through the segment's
    [set_string_at], the pool and the other columns are as before and the
    string slot of each of those rows holds the row's characters. *)
Lemma store_string_rows m agg col (char_data : Z -> Z) str_len (k : nat) :
  0 <= str_len ->
  let seg := foldl (fun a s => Instances.store_string_at m a col s (char_data s) str_len)
               agg (seqZ 0 (Z.of_nat k)) in
  string_pool seg = string_pool agg
  /\ (forall other, other <> col -> columns seg !! other = columns agg !! other)
  /\ Z.of_nat k * str_len <= Z.of_nat (length (col_buffer (column seg col)))
  /\ forall s, 0 <= s < Z.of_nat k ->
       read_bytes (col_buffer (column seg col)) (Z.to_nat (str_len * s)) (Z.to_nat str_len)
       = load_bytes m (char_data s) (Z.to_nat str_len).
Proof.
  intros Hlen. induction k as [|k IH]; cbn zeta.
  - rewrite seqZ_nil by lia. cbn [foldl]. repeat split; try done; lia.
  - rewrite seqZ_S, foldl_app, Z.add_0_l. cbn [foldl]. cbn zeta in IH.
    set (seg := foldl _ agg (seqZ 0 (Z.of_nat k))) in *.
    destruct IH as (Hpool & Hothers & Hroom & Hslots).
    unfold Instances.store_string_at.
    set (buf := Instances.ensure_bytes (col_buffer (column seg col))
                  (Z.to_nat (str_len * (Z.of_nat k + 1)))).
    set (bs := load_bytes m (char_data (Z.of_nat k)) (Z.to_nat str_len)).
    assert (Hbs : length bs = Z.to_nat str_len) by apply length_load_bytes.
    pose proof (length_ensure_bytes (col_buffer (column seg col))
                  (Z.to_nat (str_len * (Z.of_nat k + 1)))) as Hbuf. fold buf in Hbuf.
    assert (Hcolumn : column (Instances.update_column seg col
                                (with_buffer (column seg col)
                                   (write_bytes buf (Z.to_nat (str_len * Z.of_nat k)) bs)))
                        col
                      = with_buffer (column seg col)
                          (write_bytes buf (Z.to_nat (str_len * Z.of_nat k)) bs)).
    { unfold column at 1, Instances.update_column. cbn [columns].
      by rewrite lookup_insert_eq. }
    rewrite Hcolumn. cbn [string_pool Instances.update_column columns with_buffer col_buffer].
    split; [done |]. split; [| split].
    + intros other Hother. rewrite lookup_insert_ne by done. by apply Hothers.
    + rewrite length_write_bytes. nia.
    + intros s Hs. destruct (decide (s = Z.of_nat k)) as [-> | Hne].
      * pose proof (read_write_bytes_same buf (Z.to_nat (str_len * Z.of_nat k)) bs
                      ltac:(nia)) as Hsame.
        by rewrite Hbs in Hsame.
      * rewrite read_write_bytes_disjoint by nia.
        unfold buf. rewrite read_bytes_ensure_bytes by nia. apply Hslots. lia.
Qed.

(** C7.  On a fixed-width string tag each of the [rows_to_write] rows, the
    [elsize] bytes found [row + s] strides into the source, goes through
    [set_string_at] in row order, and with the segment's [set_string_at]
    the characters of row [s] end in the string slot of row [s] of column
    [col], equal rows each in a slot of their own.  The segment's string
    pool and its other columns are left as they were, nothing is flattened
    and the call returns the empty optional. *)
Theorem fixed_width_rows_bypass_the_pool (type_desc : TypeDescriptor DataType) m
    (tensor : NativeTensor DataType) agg col rows_to_write row
    slice_num regular_slice_size sparsify_floats :
  let dt := td_data_type type_desc in
  let str_len := nt_elsize tensor in
  let char_data s := ptr_add (nt_data tensor) ((row + s) * nt_strides0 tensor) in
  let out := aggregator_set_data type_desc m tensor agg col rows_to_write row
               slice_num regular_slice_size sparsify_floats in
  dispatch dt = SequenceBranch ->
  is_fixed_string_type dt = true ->
  dt = nt_data_type tensor ->
  0 <= str_len ->
  out_result out = Returned None
  /\ flattened_buffer (out_store out) = None
  /\ out_agg out
     = foldl (fun a s => set_string_at m a col s (char_data s) str_len)
         agg (seqZ 0 rows_to_write)
  /\ string_pool (out_agg out) = string_pool agg
  /\ (forall other, other <> col ->
        columns (out_agg out) !! other = columns agg !! other)
  /\ forall s, 0 <= s < rows_to_write ->
       read_bytes (col_buffer (column (out_agg out) col))
         (Z.to_nat (str_len * s)) (Z.to_nat str_len)
       = load_bytes m (char_data s) (Z.to_nat str_len).
Proof.
  intros dt str_len char_data out Hbranch Hfixed Htensor Hlen. subst out.
  unfold aggregator_set_data, visit_tag.
  rewrite set_data_visitor_checked by done. cbn zeta. fold dt.
  rewrite Hbranch, Hfixed. cbn [out_result out_store out_agg flattened_buffer].
  split; [done |]. split; [done |].
  rewrite set_fixed_strings_calls. fold str_len char_data.
  split; [done |]. cbn [set_string_at Instances.segment_aggregator].
  destruct (decide (0 <= rows_to_write)) as [Hrows | Hrows].
  - pose proof (store_string_rows m agg col char_data str_len (Z.to_nat rows_to_write) Hlen)
      as Hstored.
    cbn zeta in Hstored. rewrite Z2Nat.id in Hstored by done.
    destruct Hstored as (Hpool & Hothers & _ & Hslots). done.
  - rewrite seqZ_nil by lia. cbn [foldl]. repeat split; try done. intros s Hs. lia.
Qed.

End FixedStringStorage.

(** ** Variable-length strings: one round, then the loop *)

Section StringRowFacts.

Context {DataType : Type} `{!TypeTraits DataType}.
Context `{!PythonRuntime}.
Context {StringPool : Type} `{!StringPoolOps StringPool}.

Implicit Types (dt : DataType) (st : Store) (ls : LoopState StringPool) (pool : StringPool).

Lemma lock_after_snoc dt objs obj :
  lock_after dt (objs ++ [obj])
  = if takes_lock dt obj then Some GilHeld else lock_after dt objs.
Proof.
  unfold lock_after. rewrite existsb_app. cbn [existsb].
  destruct (existsb (takes_lock dt) objs), (takes_lock dt obj); done.
Qed.

Lemma intern_rows_snoc dt pool objs obj :
  intern_rows dt pool (objs ++ [obj]) = intern_row dt (intern_rows dt pool objs) obj.
Proof. unfold intern_rows. by rewrite foldl_app. Qed.

Lemma map_seqZ_snoc (h : Z -> Z) (k : nat) :
  map h (seqZ 0 (Z.of_nat k + 1)) = map h (seqZ 0 (Z.of_nat k)) ++ [h (Z.of_nat k)].
Proof.
  replace (Z.of_nat k + 1) with (Z.of_nat (S k)) by lia.
  by rewrite seqZ_S, map_app.
Qed.

(** A round whose handle is no text, or text that decodes: the slot gets the
    row's token, the pool the row's text, and all three cursors move on. *)
Lemma string_row_stores dt st ls obj :
  deref_word st (ls_ptr_data ls) = obj ->
  decode_error dt obj = None ->
  string_row dt st ls
  = ({| ls_s := ls_s ls + 1;
        ls_ptr_data := ptr_advance (ls_ptr_data ls) 1;
        ls_out_ptr := ls_out_ptr ls + 1;
        ls_buffer := write_word (ls_buffer ls) (ls_out_ptr ls)
                       (row_token dt (ls_string_pool ls) obj);
        ls_string_pool := intern_row dt (ls_string_pool ls) obj;
        ls_scoped_gil_lock :=
          if takes_lock dt obj then Some GilHeld else ls_scoped_gil_lock ls |},
      None).
Proof.
  intros Hobj Hok. unfold string_row. rewrite Hobj.
  unfold decode_error, row_token, intern_row, takes_lock, is_text, decode in *.
  destruct (bool_decide (obj = py_none)); cbn [negb andb] in *; [done |].
  destruct (is_py_nan obj); cbn [negb andb] in *; [done |].
  unfold py_unicode_to_buffer.
  destruct (is_utf_type dt); cbn [andb].
  - destruct (unicode_buffer obj) as [e | w]; [done |].
    destruct (pool_get (ls_string_pool ls) (buffer_ w)) as [pool offset]. cbn [fst snd].
    destruct (needs_runtime_decoding obj); [| done].
    by destruct (ls_scoped_gil_lock ls) as [[] |].
  - destruct (pystring_to_buffer obj false) as [e | w]; [done |].
    by destruct (pool_get (ls_string_pool ls) (buffer_ w)) as [pool offset].
Qed.

(** A round whose handle is text that does not decode: nothing is stored,
    the cursors stay, and the error leaves with the row's index [s]. *)
Lemma string_row_fails dt st ls obj e :
  deref_word st (ls_ptr_data ls) = obj ->
  decode_error dt obj = Some e ->
  string_row dt st ls
  = ({| ls_s := ls_s ls;
        ls_ptr_data := ls_ptr_data ls;
        ls_out_ptr := ls_out_ptr ls;
        ls_buffer := ls_buffer ls;
        ls_string_pool := ls_string_pool ls;
        ls_scoped_gil_lock :=
          if takes_lock dt obj then Some GilHeld else ls_scoped_gil_lock ls |},
      Some {| error_message_ := error_message_ e; row_index_in_slice_ := ls_s ls |}).
Proof.
  intros Hobj Hfail. unfold string_row. rewrite Hobj.
  unfold decode_error, takes_lock, is_text, decode in *.
  destruct (bool_decide (obj = py_none)); cbn [negb andb] in *; [done |].
  destruct (is_py_nan obj); cbn [negb andb] in *; [done |].
  unfold py_unicode_to_buffer.
  destruct (is_utf_type dt); cbn [andb].
  - destruct (unicode_buffer obj) as [e' | w]; [| done].
    injection Hfail as ->.
    destruct (needs_runtime_decoding obj); [| done].
    by destruct (ls_scoped_gil_lock ls) as [[] |].
  - destruct (pystring_to_buffer obj false) as [e' | w]; [| done].
    by injection Hfail as ->.
Qed.

(** Once a round has returned, later rounds do not run. *)
Lemma string_rows_stay dt st ls0 n ls e :
  string_rows dt st n ls0 = (ls, Some e) ->
  forall n', (n <= n')%nat -> string_rows dt st n' ls0 = (ls, Some e).
Proof.
  intros Hrun n' Hle. induction Hle as [| n' Hle IH]; [done |].
  cbn [string_rows]. by rewrite IH.
Qed.

(** The guard is never released inside the loop. *)
Lemma string_row_keeps_lock dt st ls :
  ls_scoped_gil_lock ls = Some GilHeld ->
  ls_scoped_gil_lock (fst (string_row dt st ls)) = Some GilHeld.
Proof.
  intros Hheld. unfold string_row.
  destruct (bool_decide _); [done |]. destruct (is_py_nan _); [done |].
  unfold py_unicode_to_buffer. rewrite Hheld.
  destruct (is_utf_type dt).
  - destruct (unicode_buffer _) as [e | w]; cbn.
    + by destruct (needs_runtime_decoding _).
    + destruct (pool_get _ _). cbn. by destruct (needs_runtime_decoding _).
  - destruct (pystring_to_buffer _ _) as [e | w]; cbn; [done |].
    by destruct (pool_get _ _).
Qed.

Lemma string_rows_keep_lock dt st ls0 n n' :
  (n <= n')%nat ->
  ls_scoped_gil_lock (fst (string_rows dt st n ls0)) = Some GilHeld ->
  ls_scoped_gil_lock (fst (string_rows dt st n' ls0)) = Some GilHeld.
Proof.
  intros Hle Hheld. induction Hle as [| n' Hle IH]; [done |].
  cbn [string_rows]. destruct (string_rows dt st n' ls0) as [ls [e |]]; [done |].
  by apply string_row_keeps_lock.
Qed.

Section Loop.

Variables (dt : DataType) (st : Store) (h : Z -> Z).
Variables (ptr0 : Ptr) (buf0 : list Z) (pool0 : StringPool) (rows : Z).

Hypothesis handles : forall k : nat,
  Z.of_nat k < rows -> deref_word st (advanced ptr0 k) = h (Z.of_nat k).
Hypothesis room : 8 * rows <= Z.of_nat (length buf0).

Local Abbreviation ls0 :=
  {| ls_s := 0; ls_ptr_data := ptr0; ls_out_ptr := 0; ls_buffer := buf0;
     ls_string_pool := pool0; ls_scoped_gil_lock := None |}.

(** One more row written. *)
Lemma rows_written_step (k : nat) buffer pool :
  Z.of_nat k < rows ->
  rows_written dt h pool0 buf0 (Z.of_nat k) buffer pool ->
  rows_written dt h pool0 buf0 (Z.of_nat k + 1)
    (write_word buffer (Z.of_nat k) (row_token dt pool (h (Z.of_nat k))))
    (intern_row dt pool (h (Z.of_nat k))).
Proof.
  intros Hk (Hpool & Hlength & Hslots & Hrest). subst pool.
  split; [| split; [| split]].
  - by rewrite map_seqZ_snoc, intern_rows_snoc.
  - by rewrite length_write_word.
  - intros j Hj. destruct (decide (j = Z.of_nat k)) as [-> | Hne].
    + apply slot_bytes_write_word_same; lia.
    + rewrite slot_bytes_write_word_other by lia. apply Hslots. lia.
  - rewrite drop_write_word by lia.
    replace (Z.to_nat (8 * (Z.of_nat k + 1))) with (Z.to_nat (8 * Z.of_nat k) + 8)%nat by lia.
    by rewrite <- !drop_drop, Hrest.
Qed.

(** The loop after [n] rounds.  [p] rows have been written; either all [n]
    rounds ran, or round [p] met text that does not decode and returned. *)
Lemma string_rows_result (n : nat) :
  Z.of_nat n <= rows ->
  exists (p : nat) ls err,
    string_rows dt st n ls0 = (ls, err)
    /\ (p <= n)%nat
    /\ (forall j, 0 <= j < Z.of_nat p -> decode_error dt (h j) = None)
    /\ rows_written dt h pool0 buf0 (Z.of_nat p) (ls_buffer ls) (ls_string_pool ls)
    /\ ((p = n /\ err = None
         /\ ls_s ls = Z.of_nat n /\ ls_out_ptr ls = Z.of_nat n
         /\ ls_ptr_data ls = advanced ptr0 n
         /\ ls_scoped_gil_lock ls = lock_after dt (map h (seqZ 0 (Z.of_nat n))))
        \/ ((p < n)%nat
            /\ exists e,
                 decode_error dt (h (Z.of_nat p)) = Some e
                 /\ err = Some {| error_message_ := error_message_ e;
                                  row_index_in_slice_ := Z.of_nat p |}
                 /\ ls_scoped_gil_lock ls
                    = lock_after dt (map h (seqZ 0 (Z.of_nat p + 1))))).
Proof.
  induction n as [|n IH]; intros Hn.
  - exists 0%nat, ls0, None. cbn [string_rows].
    split; [done |]. split; [done |]. split; [intros; lia |].
    split; [| left; done].
    repeat split; cbn; intros; first [done | lia].
  - destruct IH as (p & ls & err & Hrun & Hp & Hok & Hwritten & Hcase); [lia |].
    destruct Hcase as [(-> & -> & Hs & Hout & Hptr & Hlock) | (Hlt & e & Hfail & -> & Hlock)].
    + cbn [string_rows]. rewrite Hrun.
      assert (Hobj : deref_word st (ls_ptr_data ls) = h (Z.of_nat n))
        by (rewrite Hptr; apply handles; lia).
      destruct (decode_error dt (h (Z.of_nat n))) as [e |] eqn:Hdecode.
      * rewrite (string_row_fails dt st ls _ e Hobj Hdecode).
        eexists n, _, _. split; [reflexivity |]. split; [lia |]. split; [done |].
        cbn [ls_buffer ls_string_pool ls_scoped_gil_lock].
        split; [done |]. right. split; [lia |]. exists e.
        split; [done |]. split; [by rewrite Hs |].
        by rewrite map_seqZ_snoc, lock_after_snoc, Hlock.
      * rewrite (string_row_stores dt st ls _ Hobj Hdecode).
        eexists (S n), _, _. split; [reflexivity |]. split; [lia |].
        cbn [ls_buffer ls_string_pool ls_scoped_gil_lock ls_s ls_out_ptr ls_ptr_data].
        split.
        { intros j Hj. destruct (decide (j = Z.of_nat n)) as [-> | Hne]; [done |].
          apply Hok. lia. }
        replace (Z.of_nat (S n)) with (Z.of_nat n + 1) by lia.
        split.
        { rewrite Hout. apply rows_written_step; [lia | done]. }
        left. split; [done |]. split; [done |].
        split; [lia |]. split; [lia |]. split; [by rewrite Hptr |].
        by rewrite map_seqZ_snoc, lock_after_snoc, Hlock.
    + exists p, ls, (Some {| error_message_ := error_message_ e;
                             row_index_in_slice_ := Z.of_nat p |}).
      split; [| split; [lia | split; [done | split; [done |]]]].
      * apply (string_rows_stay dt st ls0 n); [done | lia].
      * right. split; [lia |]. by exists e.
Qed.

End Loop.

End StringRowFacts.

(** ** Variable-length strings: the call *)

Section DynamicStringFacts.

Context {DataType : Type} `{!TypeTraits DataType}.
Context `{!PythonRuntime}.
Context {StringPool : Type} `{!StringPoolOps StringPool} `{!Aggregator StringPool}.

Implicit Types (dt : DataType) (type_desc : TypeDescriptor DataType) (m : Memory).
Implicit Types (tensor : NativeTensor DataType) (agg : SegmentInMemory StringPool).

Lemma advanced_external data off k :
  advanced (ExternalPtr (ptr_add data off)) k
  = ExternalPtr (ptr_add data (off + Z.of_nat k * 8)).
Proof.
  unfold advanced. induction k as [|k IH].
  - by replace (off + Z.of_nat 0 * 8) with off by lia.
  - rewrite Nat.iter_succ, IH. cbn [ptr_advance]. rewrite ptr_add_ptr_add.
    by replace (off + Z.of_nat k * 8 + 1 * 8) with (off + Z.of_nat (S k) * 8) by lia.
Qed.

Lemma advanced_flattened k : advanced (FlattenedPtr 0) k = FlattenedPtr (Z.of_nat k * 8).
Proof.
  unfold advanced. induction k as [|k IH]; [done |].
  rewrite Nat.iter_succ, IH. cbn [ptr_advance].
  by replace (Z.of_nat k * 8 + 1 * 8) with (Z.of_nat (S k) * 8) by lia.
Qed.

Lemma lock_after_None dt (h : Z -> Z) q :
  (forall j, 0 <= j < q -> takes_lock dt (h j) = false) ->
  lock_after dt (map h (seqZ 0 q)) = None.
Proof.
  intros Hnone. unfold lock_after.
  destruct (existsb _ _) eqn:Hex; [| done].
  apply existsb_exists in Hex as (obj & Hin & Hobj).
  apply in_map_iff in Hin as (j & <- & Hj).
  apply list_elem_of_In, elem_of_seqZ in Hj.
  rewrite Hnone in Hobj by lia. done.
Qed.

Lemma col_buffer_string_loop_segment agg col rows_to_write (ls : LoopState StringPool) :
  col_buffer (column (string_loop_segment agg col rows_to_write ls) col) = ls_buffer ls.
Proof.
  unfold column, string_loop_segment. cbn [columns].
  by rewrite lookup_insert_eq.
Qed.

(** The pointer the loop starts from reads the rows' handles in row order,
    whether it points into the frame or into the flattened copy. *)
Lemma string_loop_start_handles dt m tensor agg col rows_to_write row
    slice_num regular_slice_size :
  0 <= rows_to_write ->
  rows_to_write * 8 < SIZE_MOD ->
  let start := string_loop_start (is_cstyle_array (sizeof_raw dt) tensor)
                 {| external := m; flattened_buffer := None |} tensor agg col
                 rows_to_write row slice_num regular_slice_size in
  forall k : nat,
    Z.of_nat k < rows_to_write ->
    deref_word (fst start) (advanced (ls_ptr_data (snd start)) k)
    = row_handle dt m tensor rows_to_write row slice_num regular_slice_size (Z.of_nat k).
Proof.
  intros Hrows Hfit start k Hk. subst start.
  unfold string_loop_start, row_handle.
  destruct (is_cstyle_array (sizeof_raw dt) tensor); cbn [negb fst snd ls_ptr_data].
  - rewrite advanced_external. cbn [deref_word external]. unfold SIZEOF_PTR.
    by replace (row * 8 + Z.of_nat k * 8) with ((row + Z.of_nat k) * 8) by lia.
  - unfold flatten_tensor. cbn [fst snd ls_ptr_data].
    rewrite advanced_flattened. cbn [deref_word flattened_buffer default external].
    unfold read_word_at, load_word, flatten, SIZEOF_PTR. f_equal.
    cbn [tt_rows typed_tensor].
    apply (flatten_rows_element m 8
             (typed_tensor tensor slice_num regular_slice_size rows_to_write)
             (Z.to_nat rows_to_write) _ (Z.of_nat k)); [lia | | lia].
    unfold presized, size_mul. rewrite length_replicate, wrap_size_small by lia. lia.
Qed.

(** What a call on a variable-length column leaves: [p] rows written, and
    either every row ran or row [p] did not decode. *)
Lemma set_dynamic_strings_result dt m tensor agg col rows_to_write row
    slice_num regular_slice_size :
  0 <= rows_to_write ->
  rows_to_write * 8 < SIZE_MOD ->
  let h := row_handle dt m tensor rows_to_write row slice_num regular_slice_size in
  let buf0 := col_buffer (allocate_data (column agg col)
                            (size_mul rows_to_write SIZEOF_OFFSET)) in
  let start := string_loop_start (is_cstyle_array (sizeof_raw dt) tensor)
                 {| external := m; flattened_buffer := None |} tensor agg col
                 rows_to_write row slice_num regular_slice_size in
  let out := set_dynamic_strings dt (is_cstyle_array (sizeof_raw dt) tensor)
               {| external := m; flattened_buffer := None |} tensor agg col
               rows_to_write row slice_num regular_slice_size in
  exists p err,
    out_result out = Returned err
    /\ out_gil out
       = ls_scoped_gil_lock
           (fst (string_rows dt (fst start) (Z.to_nat rows_to_write) (snd start)))
    /\ 0 <= p <= rows_to_write
    /\ (forall j, 0 <= j < p -> decode_error dt (h j) = None)
    /\ rows_written dt h (string_pool agg) buf0 p
         (col_buffer (column (out_agg out) col)) (string_pool (out_agg out))
    /\ ((p = rows_to_write /\ err = None)
        \/ (p < rows_to_write
            /\ exists e,
                 decode_error dt (h p) = Some e
                 /\ err = Some {| error_message_ := error_message_ e;
                                  row_index_in_slice_ := p |})).
Proof.
  intros Hrows Hfit h buf0 start out.
  pose proof (string_loop_start_handles dt m tensor agg col rows_to_write row
                slice_num regular_slice_size Hrows Hfit) as Hhandles.
  cbn zeta in Hhandles. fold start in Hhandles. fold h in Hhandles.
  assert (Hstart : snd start
    = {| ls_s := 0; ls_ptr_data := ls_ptr_data (snd start); ls_out_ptr := 0;
         ls_buffer := buf0; ls_string_pool := string_pool agg;
         ls_scoped_gil_lock := None |}).
  { subst start buf0. unfold string_loop_start.
    destruct (negb _); [unfold flatten_tensor |]; reflexivity. }
  assert (Hroom : 8 * rows_to_write <= Z.of_nat (length buf0)).
  { subst buf0. unfold allocate_data, presized, size_mul, SIZEOF_OFFSET.
    cbn [col_buffer]. rewrite length_app, length_replicate, wrap_size_small by lia. lia. }
  destruct (string_rows_result dt (fst start) h (ls_ptr_data (snd start)) buf0
              (string_pool agg) rows_to_write Hhandles Hroom (Z.to_nat rows_to_write))
    as (p & ls & err & Hrun & Hp & Hok & Hwritten & Hcase); [lia |].
  rewrite <- Hstart in Hrun.
  assert (Hout : out = {| out_agg := string_loop_segment agg col rows_to_write ls;
                          out_store := fst start;
                          out_gil := ls_scoped_gil_lock ls;
                          out_result := Returned err |}).
  { subst out. unfold set_dynamic_strings. fold start.
    destruct start as [st' ls0]. cbn [fst snd] in Hrun. by rewrite Hrun. }
  exists (Z.of_nat p), err. rewrite Hout, Hrun.
  cbn [out_result out_gil out_agg fst].
  rewrite col_buffer_string_loop_segment.
  cbn [string_loop_segment string_pool].
  split; [done |]. split; [done |]. split; [lia |]. split; [done |]. split; [done |].
  destruct Hcase as [(-> & -> & _) | (Hlt & e & Hfail & -> & _)].
  - left. split; [lia | done].
  - right. split; [lia |]. by exists e.
Qed.

(** C1.  On a variable-length text column every row [s] that is reached
    gets its slot of the column's offset buffer, in source order: the token
    [NOT_A_STRING] when its handle is [None]; else [NAN_PLACEHOLDER] when
    the handle is a floating NaN; else the offset the segment's pool
    returns for the handle's bytes, decoded by the decoder of the tag's
    flavour, the pool being the one that has interned the rows before [s].
    When every row is reached the pool ends as the one that has interned
    them all. *)
Theorem variable_length_rows_get_their_tokens type_desc m tensor agg col rows_to_write
    row slice_num regular_slice_size sparsify_floats s :
  let dt := td_data_type type_desc in
  let h := row_handle dt m tensor rows_to_write row slice_num regular_slice_size in
  let out := aggregator_set_data type_desc m tensor agg col rows_to_write row
               slice_num regular_slice_size sparsify_floats in
  let buffer := col_buffer (column (out_agg out) col) in
  let pool_before := intern_rows dt (string_pool agg) (map h (seqZ 0 s)) in
  dispatch dt = SequenceBranch ->
  is_fixed_string_type dt = false ->
  dt = nt_data_type tensor ->
  rows_to_write * 8 < SIZE_MOD ->
  0 <= s < rows_to_write ->
  (forall j, 0 <= j <= s -> decode_error dt (h j) = None) ->
  (h s = py_none -> slot_bytes buffer s = encode_le 8 not_a_string)
  /\ (h s <> py_none -> is_py_nan (h s) = true ->
      slot_bytes buffer s = encode_le 8 nan_placeholder)
  /\ (h s <> py_none -> is_py_nan (h s) = false ->
      exists w,
        (if is_utf_type dt then unicode_buffer (h s) else pystring_to_buffer (h s) false)
        = HoldsWrapper w
        /\ slot_bytes buffer s = encode_le 8 (snd (pool_get pool_before (buffer_ w)))
        /\ intern_rows dt (string_pool agg) (map h (seqZ 0 (s + 1)))
           = fst (pool_get pool_before (buffer_ w)))
  /\ ((forall j, 0 <= j < rows_to_write -> decode_error dt (h j) = None) ->
      string_pool (out_agg out)
      = intern_rows dt (string_pool agg) (map h (seqZ 0 rows_to_write))).
Proof.
  intros dt h out buffer pool_before Hbranch Hfixed Htensor Hfit Hs Hok.
  destruct (set_dynamic_strings_result dt m tensor agg col rows_to_write row
              slice_num regular_slice_size ltac:(lia) Hfit)
    as (p & err & _ & _ & Hp & Hokp & Hwritten & Hcase).
  assert (Hout : out = set_dynamic_strings dt (is_cstyle_array (sizeof_raw dt) tensor)
                         {| external := m; flattened_buffer := None |} tensor agg col
                         rows_to_write row slice_num regular_slice_size).
  { subst out. unfold aggregator_set_data, visit_tag.
    rewrite set_data_visitor_checked by done. cbn zeta. fold dt.
    by rewrite Hbranch, Hfixed. }
  rewrite <- Hout in Hwritten. fold h in Hwritten, Hokp, Hcase. fold buffer in Hwritten.
  destruct Hwritten as (Hpool & _ & Hslots & _).
  assert (Hreached : s < p).
  { destruct Hcase as [[-> _] | (Hlt & e & Hfail & _)]; [lia |].
    destruct (decide (s < p)); [done |]. rewrite Hok in Hfail by lia. done. }
  specialize (Hslots s ltac:(lia)). fold pool_before in Hslots.
  assert (Hsnoc : intern_rows dt (string_pool agg) (map h (seqZ 0 (s + 1)))
                  = intern_row dt pool_before (h s)).
  { subst pool_before. rewrite <- (Z2Nat.id s) by lia.
    by rewrite map_seqZ_snoc, intern_rows_snoc. }
  specialize (Hok s ltac:(lia)).
  unfold row_token in Hslots. unfold decode_error, is_text in Hok.
  unfold intern_row, is_text in Hsnoc. unfold decode in *.
  split; [| split; [| split]].
  - intros Hnone. by rewrite bool_decide_eq_true_2 in Hslots.
  - intros Hsome Hnan. by rewrite bool_decide_eq_false_2, Hnan in Hslots.
  - intros Hsome Hnan.
    rewrite bool_decide_eq_false_2, Hnan in Hslots, Hok, Hsnoc by done.
    cbn [negb andb] in Hok, Hsnoc.
    destruct (if is_utf_type dt then unicode_buffer (h s)
              else pystring_to_buffer (h s) false) as [e | w]; [done |].
    by exists w.
  - intros Hall. rewrite Hpool.
    destruct Hcase as [[-> _] | (Hlt & e & Hfail & _)]; [done |].
    rewrite Hall in Hfail by lia. done.
Qed.

(** C2.  If no row fails to decode the call returns the empty optional.  If
    row [s] of the slice is the first whose text does not decode, the call
    returns that row's error with [row_index_in_slice_] set to [s], the
    index within the slice (the frame row [row] does not enter it); the
    column's buffer from slot [s] on is as it was allocated, and the pool
    holds the text of the rows before [s] only. *)
Theorem decode_failure_stops_the_column type_desc m tensor agg col rows_to_write
    row slice_num regular_slice_size sparsify_floats :
  let dt := td_data_type type_desc in
  let h := row_handle dt m tensor rows_to_write row slice_num regular_slice_size in
  let out := aggregator_set_data type_desc m tensor agg col rows_to_write row
               slice_num regular_slice_size sparsify_floats in
  let allocated := col_buffer (allocate_data (column agg col)
                                 (size_mul rows_to_write SIZEOF_OFFSET)) in
  dispatch dt = SequenceBranch ->
  is_fixed_string_type dt = false ->
  dt = nt_data_type tensor ->
  0 <= rows_to_write ->
  rows_to_write * 8 < SIZE_MOD ->
  ((forall j, 0 <= j < rows_to_write -> decode_error dt (h j) = None) ->
   out_result out = Returned None)
  /\ (forall s e,
        0 <= s < rows_to_write ->
        (forall j, 0 <= j < s -> decode_error dt (h j) = None) ->
        decode_error dt (h s) = Some e ->
        out_result out
        = Returned (Some {| error_message_ := error_message_ e;
                            row_index_in_slice_ := s |})
        /\ drop (Z.to_nat (8 * s)) (col_buffer (column (out_agg out) col))
           = drop (Z.to_nat (8 * s)) allocated
        /\ string_pool (out_agg out)
           = intern_rows dt (string_pool agg) (map h (seqZ 0 s))).
Proof.
  intros dt h out allocated Hbranch Hfixed Htensor Hrows Hfit.
  destruct (set_dynamic_strings_result dt m tensor agg col rows_to_write row
              slice_num regular_slice_size Hrows Hfit)
    as (p & err & Hresult & _ & Hp & Hokp & Hwritten & Hcase).
  assert (Hout : out = set_dynamic_strings dt (is_cstyle_array (sizeof_raw dt) tensor)
                         {| external := m; flattened_buffer := None |} tensor agg col
                         rows_to_write row slice_num regular_slice_size).
  { subst out. unfold aggregator_set_data, visit_tag.
    rewrite set_data_visitor_checked by done. cbn zeta. fold dt.
    by rewrite Hbranch, Hfixed. }
  rewrite <- Hout in Hwritten, Hresult.
  fold h in Hwritten, Hokp, Hcase. fold allocated in Hwritten.
  destruct Hwritten as (Hpool & _ & _ & Hrest).
  split.
  - intros Hall. rewrite Hresult.
    destruct Hcase as [[_ ->] | (Hlt & e & Hfail & _)]; [done |].
    rewrite Hall in Hfail by lia. done.
  - intros s e Hs Hbefore Hfail.
    destruct Hcase as [[-> _] | (Hlt & e' & Hfail' & ->)].
    { rewrite Hokp in Hfail by lia. done. }
    assert (p = s) as ->.
    { destruct (Z.lt_trichotomy p s) as [Hlts | [-> | Hgts]]; [| done |].
      - rewrite Hbefore in Hfail' by lia. done.
      - rewrite Hokp in Hfail by lia. done. }
    rewrite Hfail in Hfail'. injection Hfail' as <-.
    by rewrite Hresult, Hrest, Hpool.
Qed.

End DynamicStringFacts.

(** ** The lock guard of a variable-length column *)

Section GilFacts.

Context {DataType : Type} `{!TypeTraits DataType}.
Context `{!PythonRuntime}.
Context {StringPool : Type} `{!StringPoolOps StringPool} `{!Aggregator StringPool}.

Implicit Types (dt : DataType) (type_desc : TypeDescriptor DataType) (m : Memory).
Implicit Types (tensor : NativeTensor DataType) (agg : SegmentInMemory StringPool).

(** The loop starts at row and slot zero, on the freshly allocated buffer,
    which has room for every row, and with no lock. *)
Lemma string_loop_start_state c_style (st : Store) tensor agg col rows_to_write row
    slice_num regular_slice_size :
  0 <= rows_to_write ->
  rows_to_write * 8 < SIZE_MOD ->
  let start := string_loop_start c_style st tensor agg col
                 rows_to_write row slice_num regular_slice_size in
  let buf0 := col_buffer (allocate_data (column agg col)
                            (size_mul rows_to_write SIZEOF_OFFSET)) in
  snd start
  = {| ls_s := 0; ls_ptr_data := ls_ptr_data (snd start); ls_out_ptr := 0;
       ls_buffer := buf0; ls_string_pool := string_pool agg;
       ls_scoped_gil_lock := None |}
  /\ 8 * rows_to_write <= Z.of_nat (length buf0).
Proof.
  intros Hrows Hfit start buf0. split.
  - subst start buf0. unfold string_loop_start.
    destruct (negb c_style); [unfold flatten_tensor |]; reflexivity.
  - subst buf0. unfold allocate_data, presized, size_mul, SIZEOF_OFFSET.
    cbn [col_buffer]. rewrite length_app, length_replicate, wrap_size_small by lia. lia.
Qed.

(** C9.  The guard [scoped_gil_lock] of a variable-length column, read after
    each round of the loop: it is empty as long as no row so far made the
    decoder take the lock (text of a UTF column that needs runtime-level
    decoding); the first such row that is reached sets it; once set it stays
    set through every later round; and the guard the call ends with is the
    one after the last round. *)
Theorem gil_is_taken_lazily_and_kept type_desc m tensor agg col rows_to_write
    row slice_num regular_slice_size sparsify_floats :
  let dt := td_data_type type_desc in
  let h := row_handle dt m tensor rows_to_write row slice_num regular_slice_size in
  let start := string_loop_start (is_cstyle_array (sizeof_raw dt) tensor)
                 {| external := m; flattened_buffer := None |} tensor agg col
                 rows_to_write row slice_num regular_slice_size in
  let lock (k : nat) :=
    ls_scoped_gil_lock (fst (string_rows dt (fst start) k (snd start))) in
  let out := aggregator_set_data type_desc m tensor agg col rows_to_write row
               slice_num regular_slice_size sparsify_floats in
  dispatch dt = SequenceBranch ->
  is_fixed_string_type dt = false ->
  dt = nt_data_type tensor ->
  0 <= rows_to_write ->
  rows_to_write * 8 < SIZE_MOD ->
  out_gil out = lock (Z.to_nat rows_to_write)
  /\ (forall k : nat,
        Z.of_nat k <= rows_to_write ->
        (forall j, 0 <= j < Z.of_nat k -> takes_lock dt (h j) = false) ->
        lock k = None)
  /\ (forall k : nat,
        Z.of_nat k < rows_to_write ->
        (forall j, 0 <= j < Z.of_nat k -> decode_error dt (h j) = None) ->
        takes_lock dt (h (Z.of_nat k)) = true ->
        lock (S k) = Some GilHeld)
  /\ (forall k k' : nat,
        (k <= k')%nat -> lock k = Some GilHeld -> lock k' = Some GilHeld).
Proof.
  intros dt h start lock out Hbranch Hfixed Htensor Hrows Hfit.
  pose proof (string_loop_start_handles dt m tensor agg col rows_to_write row
                slice_num regular_slice_size Hrows Hfit) as Hhandles.
  cbn zeta in Hhandles. fold start in Hhandles. fold h in Hhandles.
  destruct (string_loop_start_state (is_cstyle_array (sizeof_raw dt) tensor)
              {| external := m; flattened_buffer := None |} tensor agg col
              rows_to_write row slice_num regular_slice_size Hrows Hfit)
    as [Hstart Hroom].
  fold start in Hstart.
  set (buf0 := col_buffer (allocate_data (column agg col)
                             (size_mul rows_to_write SIZEOF_OFFSET))) in *.
  pose proof (string_rows_result dt (fst start) h (ls_ptr_data (snd start)) buf0
                (string_pool agg) rows_to_write Hhandles Hroom) as Hloop.
  rewrite <- Hstart in Hloop.
  split; [| split; [| split]].
  - subst out lock. unfold aggregator_set_data, visit_tag.
    rewrite set_data_visitor_checked by done. cbn zeta. fold dt.
    rewrite Hbranch, Hfixed. unfold set_dynamic_strings. fold start.
    destruct start as [st' ls0]. cbn [fst snd].
    by destruct (string_rows dt st' (Z.to_nat rows_to_write) ls0).
  - intros k Hk Hnone. subst lock. cbn beta.
    destruct (Hloop k Hk) as (p & ls & err & -> & Hp & _ & _ & Hcase). cbn [fst].
    destruct Hcase as [(_ & _ & _ & _ & _ & ->) | (Hlt & e & _ & _ & ->)];
      apply lock_after_None; intros j Hj; apply Hnone; lia.
  - intros k Hk Hok Htakes. subst lock. cbn beta.
    destruct (Hloop (S k) ltac:(lia)) as (p & ls & err & -> & Hp & Hokp & _ & Hcase).
    cbn [fst].
    destruct Hcase as [(_ & _ & _ & _ & _ & ->) | (Hlt & e & Hfail & _ & ->)].
    + replace (Z.of_nat (S k)) with (Z.of_nat k + 1) by lia.
      by rewrite map_seqZ_snoc, lock_after_snoc, Htakes.
    + assert (p = k) as ->.
      { destruct (decide (p = k)); [done |]. rewrite Hok in Hfail by lia. done. }
      by rewrite map_seqZ_snoc, lock_after_snoc, Htakes.
  - intros k k' Hle. subst lock. cbn beta. by apply string_rows_keep_lock.
Qed.

End GilFacts.

(** ** Numbers and booleans: borrowed block or owned copy *)

Lemma take_write_bytes (buf : list Z) off bs :
  (off + length bs <= length buf)%nat ->
  take (off + length bs) (write_bytes buf off bs) = take off buf ++ bs.
Proof.
  intros Hlen. apply list_eq; intros i. rewrite lookup_take.
  assert (Htake : length (take off buf) = off) by (rewrite length_take; lia).
  case_decide as Hi.
  - destruct (decide (i < off)%nat) as [Hlt | Hge].
    + rewrite lookup_write_bytes_outside by lia.
      rewrite lookup_app_l by lia. by rewrite lookup_take_lt.
    + rewrite lookup_write_bytes_inside by lia.
      rewrite lookup_app_r by lia. by rewrite Htake.
  - symmetry. apply lookup_ge_None_2. rewrite length_app. lia.
Qed.

(** The first [k] elements of the destination after [k] rows are the rows
    of the view, one after the other. *)
Lemma take_flatten_rows m sz (t : TypedTensor) k (dst : list Z) :
  0 < sz ->
  Z.of_nat k * sz <= Z.of_nat (length dst) ->
  take (Z.to_nat (Z.of_nat k * sz)) (flatten_rows m sz t k dst)
  = concat (map (fun i => load_bytes m (view_addr t i) (Z.to_nat sz))
              (seqZ 0 (Z.of_nat k))).
Proof.
  intros Hsz. induction k as [|k IH]; intros Hlen.
  - by rewrite seqZ_nil, take_0 by lia.
  - cbn [flatten_rows]. rewrite seqZ_S, map_app, concat_app. cbn [map concat].
    rewrite app_nil_r, <- IH by lia.
    pose proof (take_write_bytes (flatten_rows m sz t k dst)
                  (Z.to_nat (Z.of_nat k * sz))
                  (load_bytes m (view_addr t (Z.of_nat k)) (Z.to_nat sz))) as Htake.
    rewrite length_load_bytes, length_flatten_rows in Htake.
    replace (Z.to_nat (Z.of_nat (S k) * sz))
      with (Z.to_nat (Z.of_nat k * sz) + Z.to_nat sz)%nat by nia.
    by rewrite Htake by nia.
Qed.

Lemma flatten_presized m sz (t : TypedTensor) :
  0 < sz ->
  0 <= tt_rows t ->
  flatten m sz t (presized (tt_rows t * sz))
  = concat (map (fun i => load_bytes m (view_addr t i) (Z.to_nat sz))
              (seqZ 0 (tt_rows t))).
Proof.
  intros Hsz Hrows. unfold flatten.
  pose proof (take_flatten_rows m sz t (Z.to_nat (tt_rows t))
                (presized (tt_rows t * sz)) Hsz) as Htake.
  unfold presized in *. rewrite length_replicate in Htake.
  rewrite Z2Nat.id in Htake by done. rewrite <- Htake by nia.
  symmetry. apply take_ge. rewrite length_flatten_rows, length_replicate. lia.
Qed.

Section NumericFacts.

Context {DataType : Type} `{!TypeTraits DataType}.
Context `{!PythonRuntime}.
Context {StringPool : Type} `{!StringPoolOps StringPool}.

Implicit Types (type_desc : TypeDescriptor DataType) (m : Memory).
Implicit Types (tensor : NativeTensor DataType) (agg : SegmentInMemory StringPool).

Lemma column_update_column agg col (c : Column) :
  column (Instances.update_column agg col c) col = c.
Proof.
  unfold column, Instances.update_column. cbn [columns]. by rewrite lookup_insert_eq.
Qed.

(** C4.  With [sparsify_floats] off, a numeric or boolean column whose view
    is C-style is handed to [set_external_block] as it stands in the frame:
    the column gains a borrowed block and no owned byte, so what a reader
    sees there is what the frame memory holds when it reads.  Any other
    view is handed to [set_array], which appends to the column's own buffer
    the [rows_to_write] values of the view in row order, as the frame held
    them at the call.  Neither path fills [flattened_buffer]. *)
Theorem numeric_rows_are_borrowed_or_copied type_desc m tensor agg col rows_to_write
    row slice_num regular_slice_size :
  let dt := td_data_type type_desc in
  let sz := sizeof_raw dt in
  let ptr := ptr_cast sz tensor row in
  let view := typed_tensor tensor slice_num regular_slice_size rows_to_write in
  let gathered :=
    concat (map (fun i => load_bytes m (view_addr view i) (Z.to_nat sz))
              (seqZ 0 rows_to_write)) in
  let out := aggregator_set_data type_desc m tensor agg col rows_to_write row
               slice_num regular_slice_size false in
  let before := column agg col in
  let after := column (out_agg out) col in
  dispatch dt = NumericBranch ->
  dt = nt_data_type tensor ->
  0 <= rows_to_write ->
  0 < sz ->
  out_result out = Returned None
  /\ flattened_buffer (out_store out) = None
  /\ if is_cstyle_array sz tensor then
       out_agg out = set_external_block sz m agg col ptr rows_to_write
       /\ col_buffer after = col_buffer before
       /\ col_external after = col_external before ++ [(ptr, rows_to_write * sz)]
       /\ forall m' : Memory,
            column_bytes m' after
            = column_bytes m' before ++ load_bytes m' ptr (Z.to_nat (rows_to_write * sz))
     else
       out_agg out = set_array sz m agg col view
       /\ col_external after = col_external before
       /\ col_buffer after = col_buffer before ++ gathered
       /\ forall m' : Memory,
            column_bytes m' after
            = col_buffer before ++ gathered
              ++ concat (map (fun blk => load_bytes m' (fst blk) (Z.to_nat (snd blk)))
                           (col_external before)).
Proof.
  intros dt sz ptr view gathered out before after Hbranch Htensor Hrows Hsz.
  subst after out. unfold aggregator_set_data, visit_tag.
  rewrite set_data_visitor_checked by done. cbn zeta. fold dt sz.
  rewrite Hbranch. unfold set_numeric. fold sz ptr view.
  destruct (is_cstyle_array sz tensor);
    cbn [out_result out_store out_agg flattened_buffer];
    (split; [done |]); (split; [done |]); (split; [done |]);
    cbn [set_external_block set_array Instances.segment_aggregator];
    unfold Instances.borrow_block, Instances.flatten_array;
    rewrite column_update_column; fold before.
  - cbn [col_buffer col_external external]. split; [done |]. split; [done |].
    intros m'. unfold column_bytes. cbn [col_buffer col_external].
    rewrite map_app, concat_app. cbn [map concat fst snd].
    by rewrite app_nil_r, app_assoc.
  - cbn [with_buffer col_buffer col_external external].
    rewrite flatten_presized by done. cbn [tt_rows view typed_tensor].
    split; [done |]. split; [done |].
    intros m'. unfold column_bytes. cbn [with_buffer col_buffer col_external].
    by rewrite <- app_assoc.
Qed.

End NumericFacts.

(** ** The model at work on small frames *)

Section Examples.

Import Instances.

#[local] Existing Instance example_runtime.

(** Every tag of the enumeration takes one of the three data branches. *)
Lemma every_tag_is_dispatched (dt : DataType) : dispatch dt <> UnknownBranch.
Proof. by destruct dt. Qed.

(** The text column of the specification's example: rows 0 and 4 share a
    token, rows 1 and 3 hold the two sentinels, and no lock is taken. *)
Lemma text_column_example :
  let out := aggregator_set_data (mkTypeDescriptor UTF_DYNAMIC64) text_memory text_tensor
               empty_segment 0 5 0 0 5 false in
  out_result out = Returned None
  /\ string_pool (out_agg out) = [[97]; [98; 98]]
  /\ map (read_word (col_buffer (column (out_agg out) 0))) [0; 1; 2; 3; 4]
     = [0; not_a_string; 1; nan_placeholder; 0]
  /\ out_gil out = None.
Proof. vm_compute. done. Qed.

Lemma flatten_tensor_gathers_witness :
  let st := {| external := fixed_memory; flattened_buffer := None |} in
  let view := typed_tensor int16_tensor 0 2 2 in
  let result := flatten_tensor 2 st 2 int16_tensor 0 2 in
  exists buf,
    flattened_buffer (fst result) = Some buf
    /\ Z.of_nat (length buf) = 2 * 2
    /\ (forall i, 0 <= i < 2 ->
          read_bytes buf (Z.to_nat (i * 2)) (Z.to_nat 2)
          = load_bytes (external st) (ptr_add (tt_data view) (i * nt_strides0 int16_tensor))
              (Z.to_nat 2))
    /\ external (fst result) = external st
    /\ snd result = FlattenedPtr 0.
Proof.
  apply (flatten_tensor_gathers 2 {| external := fixed_memory; flattened_buffer := None |}
           2 int16_tensor 0 2); [lia | lia | vm_compute; reflexivity].
Defined.

Lemma type_mismatch_witness :
  let out := set_data_visitor UTF_DYNAMIC64 (mkTypeDescriptor INT32) text_memory
               text_tensor empty_segment 0 5 0 0 5 false in
  (exists msg, out_result out = Raised (CheckFailure msg))
  /\ out_agg out = empty_segment
  /\ flattened_buffer (out_store out) = None
  /\ (UTF_DYNAMIC64 = td_data_type (mkTypeDescriptor INT32) ->
      aggregator_set_data (mkTypeDescriptor INT32) text_memory text_tensor
        empty_segment 0 5 0 0 5 false = out).
Proof.
  apply (type_mismatch_is_a_check_failure UTF_DYNAMIC64 (mkTypeDescriptor INT32)
           text_memory text_tensor empty_segment 0 5 0 0 5 false);
    [discriminate | left; discriminate].
Defined.

Lemma sparsify_integer_witness :
  let out := aggregator_set_data (mkTypeDescriptor INT32) fixed_memory int32_tensor
               empty_segment 0 1 0 0 1 true in
  out_agg out = empty_segment
  /\ flattened_buffer (out_store out) = None
  /\ (exists e, out_result out = Raised e)
  /\ (INT32 = nt_data_type int32_tensor ->
      out_result out
      = Raised (RuntimeError "sparse currently supported for floating point columns only.")).
Proof.
  exact (sparsify_floats_needs_a_floating_point_tag (mkTypeDescriptor INT32) fixed_memory
           int32_tensor empty_segment 0 1 0 0 1 eq_refl).
Defined.

Lemma numeric_strided_witness :
  let out := aggregator_set_data (mkTypeDescriptor INT16) fixed_memory int16_tensor
               empty_segment 0 2 0 0 2 false in
  out_result out = Returned None
  /\ flattened_buffer (out_store out) = None
  /\ col_buffer (column (out_agg out) 0) = [97; 98; 99; 100]
  /\ col_external (column (out_agg out) 0) = [].
Proof.
  pose proof (numeric_rows_are_borrowed_or_copied (mkTypeDescriptor INT16) fixed_memory
                int16_tensor empty_segment 0 2 0 0 2
                eq_refl eq_refl ltac:(lia) ltac:(vm_compute; reflexivity))
    as (Hresult & Hflat & _ & Hexternal & Hbuffer & _).
  split; [exact Hresult |]. split; [exact Hflat |].
  split; [rewrite Hbuffer; vm_compute; reflexivity |].
  rewrite Hexternal. vm_compute. reflexivity.
Defined.

Lemma fixed_width_witness :
  let out := aggregator_set_data (mkTypeDescriptor ASCII_FIXED64) fixed_memory fixed_tensor
               empty_segment 0 3 0 0 3 false in
  out_result out = Returned None
  /\ flattened_buffer (out_store out) = None
  /\ out_agg out
     = foldl (fun a s => set_string_at fixed_memory a 0 s
                           (ptr_add (nt_data fixed_tensor) ((0 + s) * nt_strides0 fixed_tensor))
                           (nt_elsize fixed_tensor))
         empty_segment (seqZ 0 3).
Proof.
  exact (fixed_width_rows_go_through_set_string_at (mkTypeDescriptor ASCII_FIXED64)
           fixed_memory fixed_tensor empty_segment 0 3 0 0 3 false
           eq_refl eq_refl eq_refl).
Defined.

(** Three fixed-width rows, "ab", "ab" and "cd", written to an empty
    segment: the pool stays empty and the column holds the six characters,
    the repeated row twice. *)
Lemma fixed_width_bypass_witness :
  let out := aggregator_set_data (mkTypeDescriptor ASCII_FIXED64) fixed_memory fixed_tensor
               empty_segment 0 3 0 0 3 false in
  out_result out = Returned None
  /\ string_pool (out_agg out) = []
  /\ read_bytes (col_buffer (column (out_agg out) 0)) 0 2 = [97; 98]
  /\ read_bytes (col_buffer (column (out_agg out) 0)) 2 2 = [97; 98]
  /\ read_bytes (col_buffer (column (out_agg out) 0)) 4 2 = [99; 100].
Proof.
  pose proof (fixed_width_rows_bypass_the_pool (mkTypeDescriptor ASCII_FIXED64)
                fixed_memory fixed_tensor empty_segment 0 3 0 0 3 false
                eq_refl eq_refl eq_refl ltac:(vm_compute; discriminate))
    as (Hresult & _ & _ & Hpool & _ & Hslots).
  split; [exact Hresult |]. split; [exact Hpool |].
  split; [| split].
  - etrans; [exact (Hslots 0 ltac:(lia)) |]. vm_compute. reflexivity.
  - etrans; [exact (Hslots 1 ltac:(lia)) |]. vm_compute. reflexivity.
  - etrans; [exact (Hslots 2 ltac:(lia)) |]. vm_compute. reflexivity.
Defined.

(** The dispatch on three calls: a text column runs the string loop, an
    [INT32] column the numeric branch, and an empty column nothing. *)
Lemma dispatch_witness :
  aggregator_set_data (mkTypeDescriptor UTF_DYNAMIC64) text_memory text_tensor
    empty_segment 0 5 0 0 5 false
  = set_dynamic_strings UTF_DYNAMIC64 true
      {| external := text_memory; flattened_buffer := None |} text_tensor
      empty_segment 0 5 0 0 5
  /\ aggregator_set_data (mkTypeDescriptor INT32) fixed_memory int32_tensor
       empty_segment 0 1 0 0 1 false
     = set_numeric INT32 true {| external := fixed_memory; flattened_buffer := None |}
         int32_tensor empty_segment 0 1 0 0 1 false
  /\ out_result (aggregator_set_data (mkTypeDescriptor EMPTYVAL) fixed_memory
                   {| nt_data_type := EMPTYVAL; nt_data := 64; nt_strides0 := 0;
                      nt_elsize := 0 |}
                   empty_segment 0 3 0 0 3 false)
     = Returned None.
Proof.
  split; [| split].
  - destruct (dispatch_is_exhaustive UTF_DYNAMIC64 (mkTypeDescriptor UTF_DYNAMIC64)
                text_memory text_tensor empty_segment 0 5 0 0 5 false)
      as [Hcall (_ & _ & _ & Hbody)].
    rewrite Hcall by reflexivity. exact (Hbody (conj eq_refl eq_refl)).
  - destruct (dispatch_is_exhaustive INT32 (mkTypeDescriptor INT32)
                fixed_memory int32_tensor empty_segment 0 1 0 0 1 false)
      as [Hcall (_ & _ & _ & _ & Hbody)].
    rewrite Hcall by reflexivity. exact (Hbody (conj eq_refl eq_refl)).
  - destruct (dispatch_is_exhaustive EMPTYVAL (mkTypeDescriptor EMPTYVAL) fixed_memory
                {| nt_data_type := EMPTYVAL; nt_data := 64; nt_strides0 := 0;
                   nt_elsize := 0 |}
                empty_segment 0 3 0 0 3 false)
      as [Hcall (_ & _ & _ & _ & _ & _ & Hbody)].
    rewrite Hcall by reflexivity. exact (Hbody (conj eq_refl eq_refl)).
Defined.

Lemma text_row_witness :
  let out := aggregator_set_data (mkTypeDescriptor UTF_DYNAMIC64) text_memory text_tensor
               empty_segment 0 5 0 0 5 false in
  slot_bytes (col_buffer (column (out_agg out) 0)) 2 = encode_le 8 1
  /\ slot_bytes (col_buffer (column (out_agg out) 0)) 1 = encode_le 8 not_a_string
  /\ slot_bytes (col_buffer (column (out_agg out) 0)) 3 = encode_le 8 nan_placeholder.
Proof.
  assert (Hdecodes : forall s j : Z, 0 <= s < 5 -> 0 <= j <= s ->
            decode_error UTF_DYNAMIC64
              (row_handle UTF_DYNAMIC64 text_memory text_tensor 5 0 0 5 j) = None).
  { intros s j Hs Hj.
    assert (j = 0 \/ j = 1 \/ j = 2 \/ j = 3 \/ j = 4) as [-> | [-> | [-> | [-> | ->]]]]
      by lia; vm_compute; reflexivity. }
  pose proof (fun s Hs => variable_length_rows_get_their_tokens
                (mkTypeDescriptor UTF_DYNAMIC64) text_memory text_tensor empty_segment
                0 5 0 0 5 false s eq_refl eq_refl eq_refl
                ltac:(vm_compute; reflexivity) Hs (fun j => Hdecodes s j Hs)) as Hrow.
  split; [| split].
  - destruct (Hrow 2 ltac:(lia)) as (_ & _ & Htext & _).
    destruct Htext as (w & Hw & Hslot & _); [discriminate | reflexivity |].
    vm_compute in Hw. injection Hw as <-. exact Hslot.
  - destruct (Hrow 1 ltac:(lia)) as (Hnone & _). by apply Hnone.
  - destruct (Hrow 3 ltac:(lia)) as (_ & Hnan & _). by apply Hnan.
Defined.

Lemma decode_failure_witness :
  let out := aggregator_set_data (mkTypeDescriptor UTF_DYNAMIC64) strided_memory
               strided_tensor empty_segment 0 4 7 0 4 false in
  out_result out
  = Returned (Some {| error_message_ := "cannot decode"; row_index_in_slice_ := 2 |})
  /\ drop 16 (col_buffer (column (out_agg out) 0)) = replicate 16 0
  /\ string_pool (out_agg out) = [[97]; [195; 169]].
Proof.
  pose proof (proj2 (decode_failure_stops_the_column
                       (mkTypeDescriptor UTF_DYNAMIC64) strided_memory strided_tensor
                       empty_segment 0 4 7 0 4 false eq_refl eq_refl eq_refl
                       ltac:(lia) ltac:(vm_compute; reflexivity))
                2 {| error_message_ := "cannot decode"; row_index_in_slice_ := 0 |}
                ltac:(lia)) as Hfail.
  destruct Hfail as (Hresult & Hrest & Hpool).
  - intros j Hj. assert (j = 0 \/ j = 1) as [-> | ->] by lia; vm_compute; reflexivity.
  - vm_compute. reflexivity.
  - split; [exact Hresult |]. split.
    + etrans; [exact Hrest |]. vm_compute. reflexivity.
    + etrans; [exact Hpool |]. vm_compute. reflexivity.
Defined.

Lemma gil_witness :
  let start := string_loop_start false
                 {| external := strided_memory; flattened_buffer := None |}
                 strided_tensor empty_segment 0 4 7 0 4 in
  let lock (k : nat) :=
    ls_scoped_gil_lock (fst (string_rows UTF_DYNAMIC64 (fst start) k (snd start))) in
  let out := aggregator_set_data (mkTypeDescriptor UTF_DYNAMIC64) strided_memory
               strided_tensor empty_segment 0 4 7 0 4 false in
  lock 1%nat = None /\ lock 2%nat = Some GilHeld /\ lock 4%nat = Some GilHeld
  /\ out_gil out = Some GilHeld.
Proof.
  pose proof (gil_is_taken_lazily_and_kept (mkTypeDescriptor UTF_DYNAMIC64) strided_memory
                strided_tensor empty_segment 0 4 7 0 4 false eq_refl eq_refl eq_refl
                ltac:(lia) ltac:(vm_compute; reflexivity))
    as (Hend & Hlazy & Htaken & Hkept).
  assert (Hfirst : ls_scoped_gil_lock
            (fst (string_rows UTF_DYNAMIC64
                    (fst (string_loop_start false
                            {| external := strided_memory; flattened_buffer := None |}
                            strided_tensor empty_segment 0 4 7 0 4)) 2
                    (snd (string_loop_start false
                            {| external := strided_memory; flattened_buffer := None |}
                            strided_tensor empty_segment 0 4 7 0 4)))) = Some GilHeld).
  { apply (Htaken 1%nat); [lia | | vm_compute; reflexivity].
    intros j Hj. assert (j = 0) as -> by lia. vm_compute. reflexivity. }
  split; [| split; [exact Hfirst | split]].
  - apply (Hlazy 1%nat); [lia |].
    intros j Hj. assert (j = 0) as -> by lia. vm_compute. reflexivity.
  - apply (Hkept 2%nat 4%nat); [lia | exact Hfirst].
  - cbv zeta. rewrite Hend. apply (Hkept 2%nat (Z.to_nat 4)); [lia | exact Hfirst].
Defined.

End Examples.

(** ** Further properties of [aggregator_set_data] *)

Section CallFacts.

Context {DataType : Type} `{!TypeTraits DataType}.
Context `{!PythonRuntime}.
Context {StringPool : Type} `{!StringPoolOps StringPool} `{!Aggregator StringPool}.

Implicit Types (dt : DataType) (type_desc : TypeDescriptor DataType) (m : Memory).
Implicit Types (tensor : NativeTensor DataType) (agg : SegmentInMemory StringPool).
Implicit Types (st : Store) (ls : LoopState StringPool).

(** The dynamic-string branch, once the call has reached it. *)
Lemma aggregator_set_data_dynamic type_desc m tensor agg col rows_to_write row
    slice_num regular_slice_size sparsify_floats :
  let dt := td_data_type type_desc in
  dispatch dt = SequenceBranch ->
  is_fixed_string_type dt = false ->
  dt = nt_data_type tensor ->
  aggregator_set_data type_desc m tensor agg col rows_to_write row
    slice_num regular_slice_size sparsify_floats
  = set_dynamic_strings dt (is_cstyle_array (sizeof_raw dt) tensor)
      {| external := m; flattened_buffer := None |} tensor agg col
      rows_to_write row slice_num regular_slice_size.
Proof.
  intros dt Hbranch Hfixed Htensor. unfold aggregator_set_data, visit_tag.
  rewrite set_data_visitor_checked by done. cbn zeta. fold dt.
  by rewrite Hbranch, Hfixed.
Qed.

(** A call whose tensor has another data type than the descriptor changes
    nothing. *)
Lemma aggregator_set_data_mismatch type_desc m tensor agg col rows_to_write row
    slice_num regular_slice_size sparsify_floats :
  td_data_type type_desc <> nt_data_type tensor ->
  out_agg (aggregator_set_data type_desc m tensor agg col rows_to_write row
             slice_num regular_slice_size sparsify_floats) = agg
  /\ flattened_buffer
       (out_store (aggregator_set_data type_desc m tensor agg col rows_to_write row
                     slice_num regular_slice_size sparsify_floats)) = None
  /\ forall e, out_result (aggregator_set_data type_desc m tensor agg col rows_to_write
                             row slice_num regular_slice_size sparsify_floats)
               <> Returned e.
Proof.
  intros Hne. unfold aggregator_set_data, visit_tag, set_data_visitor.
  rewrite (bool_decide_eq_false_2 _ Hne). cbn [negb].
  destruct (dispatch (td_data_type type_desc)); done.
Qed.

(** X4.  The local [flattened_buffer] is filled by exactly one kind of call:
    a variable-length string column whose type check passes and whose view
    is not C-style.  Fixed-width strings, numbers and booleans never fill
    it, strided or not. *)
Theorem flattened_buffer_is_for_strided_text_only type_desc m tensor agg col
    rows_to_write row slice_num regular_slice_size sparsify_floats :
  let dt := td_data_type type_desc in
  let out := aggregator_set_data type_desc m tensor agg col rows_to_write row
               slice_num regular_slice_size sparsify_floats in
  flattened_buffer (out_store out) <> None
  <-> dispatch dt = SequenceBranch
      /\ is_fixed_string_type dt = false
      /\ dt = nt_data_type tensor
      /\ is_cstyle_array (sizeof_raw dt) tensor = false.
Proof.
  intros dt out. subst out.
  destruct (decide (dt = nt_data_type tensor)) as [Htensor | Htensor].
  2:{ destruct (aggregator_set_data_mismatch type_desc m tensor agg col rows_to_write
                  row slice_num regular_slice_size sparsify_floats Htensor)
        as (_ & -> & _).
      split; [done | intros (_ & _ & ? & _); done]. }
  unfold aggregator_set_data, visit_tag.
  rewrite set_data_visitor_checked by done. cbn zeta. fold dt.
  destruct (dispatch dt) eqn:Hbranch.
  - destruct (is_fixed_string_type dt) eqn:Hfixed.
    + cbn. split; [done | intros (_ & ? & _); done].
    + unfold set_dynamic_strings, string_loop_start.
      destruct (is_cstyle_array (sizeof_raw dt) tensor) eqn:Hstyle; cbn [negb].
      * destruct (string_rows _ _ _ _) as [ls err]. cbn.
        split; [done | intros (_ & _ & _ & ?); done].
      * unfold flatten_tensor.
        destruct (string_rows _ _ _ _) as [ls err]. cbn. split; [done |]. done.
  - unfold set_numeric.
    destruct sparsify_floats, (is_floating_point_type dt),
      (is_cstyle_array (sizeof_raw dt) tensor); cbn;
      (split; [done | intros (? & _); done]).
  - cbn. split; [done | intros (? & _); done].
  - cbn. split; [done | intros (? & _); done].
Qed.

(** X5.  [sparsify_floats] is read on the numeric and boolean branch only.
    On every other tag the call does the same with the flag set as with the
    flag clear: a string or empty column given the flag raises nothing. *)
Theorem sparsify_floats_is_ignored_off_the_numeric_branch type_desc m tensor agg col
    rows_to_write row slice_num regular_slice_size :
  dispatch (td_data_type type_desc) <> NumericBranch ->
  aggregator_set_data type_desc m tensor agg col rows_to_write row
    slice_num regular_slice_size true
  = aggregator_set_data type_desc m tensor agg col rows_to_write row
      slice_num regular_slice_size false.
Proof.
  intros Hbranch. unfold aggregator_set_data, visit_tag, set_data_visitor.
  by destruct (dispatch (td_data_type type_desc)).
Qed.

(** A round of the loop on a tag that is not UTF leaves the guard alone. *)
Lemma string_row_leaves_lock dt st ls :
  is_utf_type dt = false ->
  ls_scoped_gil_lock (fst (string_row dt st ls)) = ls_scoped_gil_lock ls.
Proof.
  intros Hutf. unfold string_row. rewrite Hutf.
  destruct (bool_decide _); [done |]. destruct (is_py_nan _); [done |].
  destruct (pystring_to_buffer _ _) as [e | w]; [done |].
  by destruct (pool_get _ _).
Qed.

Lemma string_rows_leave_lock dt st ls k :
  is_utf_type dt = false ->
  ls_scoped_gil_lock (fst (string_rows dt st k ls)) = ls_scoped_gil_lock ls.
Proof.
  intros Hutf. induction k as [|k IH]; [done |].
  cbn [string_rows]. destruct (string_rows dt st k ls) as [ls' [e |]]; [done |].
  cbn [fst] in IH. by rewrite string_row_leaves_lock.
Qed.

(** X6.  A call on a tag that is not UTF-flavoured never sets the lock guard:
    the raw-bytes decoder of line 153 is not handed the guard, so after
    every round of the loop, and when the call ends, the guard is empty,
    whatever the handles are. *)
Theorem lock_is_never_taken_off_utf type_desc m tensor agg col
    rows_to_write row slice_num regular_slice_size sparsify_floats :
  let dt := td_data_type type_desc in
  let start := string_loop_start (is_cstyle_array (sizeof_raw dt) tensor)
                 {| external := m; flattened_buffer := None |} tensor agg col
                 rows_to_write row slice_num regular_slice_size in
  is_utf_type dt = false ->
  out_gil (aggregator_set_data type_desc m tensor agg col rows_to_write row
             slice_num regular_slice_size sparsify_floats) = None
  /\ forall k : nat,
       ls_scoped_gil_lock (fst (string_rows dt (fst start) k (snd start))) = None.
Proof.
  intros dt start Hutf.
  assert (Hstart : ls_scoped_gil_lock (snd start) = None).
  { subst start. unfold string_loop_start.
    destruct (negb _); [unfold flatten_tensor |]; reflexivity. }
  split; [| intros k; by rewrite string_rows_leave_lock].
  unfold aggregator_set_data, visit_tag, set_data_visitor. fold dt.
  destruct (dispatch dt); try done; destruct (negb _); try done;
    destruct (negb _); try done.
  - destruct (is_fixed_string_type dt); [done |].
    unfold set_dynamic_strings. fold start.
    pose proof (string_rows_leave_lock dt (fst start) (snd start)
                  (Z.to_nat rows_to_write) Hutf) as Hlock.
    destruct start as [st' ls0]. cbn [fst snd] in *.
    destruct (string_rows dt st' (Z.to_nat rows_to_write) ls0) as [ls err].
    cbn [fst] in Hlock. cbn [out_gil]. by rewrite Hlock.
  - unfold set_numeric.
    by destruct sparsify_floats, (is_floating_point_type dt),
         (is_cstyle_array (sizeof_raw dt) tensor).
Qed.

(** A round of the loop keeps the length of the column's buffer. *)
Lemma length_string_rows dt st ls k :
  length (ls_buffer (fst (string_rows dt st k ls))) = length (ls_buffer ls).
Proof.
  induction k as [|k IH]; [done |].
  cbn [string_rows]. destruct (string_rows dt st k ls) as [ls' [e |]]; [done |].
  cbn [fst] in IH. rewrite <- IH. unfold string_row.
  destruct (bool_decide _); [apply length_write_word |].
  destruct (is_py_nan _); [apply length_write_word |].
  destruct (if is_utf_type dt then _ else _) as [[e | w] gil]; [done |].
  destruct (pool_get _ _). apply length_write_word.
Qed.

(** X7.  A call on a variable-length string column whose
    [rows_to_write * sizeof(offset_t)] bytes fit the [size_t] of line 141,
    so that every slot the loop stores to lies inside the allocation,
    touches column [col] and the pool only: every other column of the
    segment is as before, and so are the borrowed blocks and the presence
    bitmap of column [col].  Once the type check passes its buffer is
    longer by those bytes, whether or not a row failed to decode. *)
Theorem variable_length_write_is_confined_to_its_column type_desc m tensor agg col
    rows_to_write row slice_num regular_slice_size sparsify_floats :
  let dt := td_data_type type_desc in
  let out := aggregator_set_data type_desc m tensor agg col rows_to_write row
               slice_num regular_slice_size sparsify_floats in
  dispatch dt = SequenceBranch ->
  is_fixed_string_type dt = false ->
  0 <= rows_to_write ->
  rows_to_write * 8 < SIZE_MOD ->
  (forall other, other <> col -> columns (out_agg out) !! other = columns agg !! other)
  /\ col_external (column (out_agg out) col) = col_external (column agg col)
  /\ col_sparse_map (column (out_agg out) col) = col_sparse_map (column agg col)
  /\ (dt = nt_data_type tensor ->
      length (col_buffer (column (out_agg out) col))
      = (length (col_buffer (column agg col))
         + Z.to_nat (rows_to_write * SIZEOF_OFFSET))%nat).
Proof.
  intros dt out Hbranch Hfixed Hrows Hfit. subst out.
  destruct (decide (dt = nt_data_type tensor)) as [Htensor | Htensor].
  2:{ destruct (aggregator_set_data_mismatch type_desc m tensor agg col rows_to_write
                  row slice_num regular_slice_size sparsify_floats Htensor)
        as (-> & _). done. }
  rewrite aggregator_set_data_dynamic by done. fold dt.
  unfold set_dynamic_strings.
  pose proof (length_string_rows dt
                (fst (string_loop_start (is_cstyle_array (sizeof_raw dt) tensor)
                        {| external := m; flattened_buffer := None |} tensor agg col
                        rows_to_write row slice_num regular_slice_size))
                (snd (string_loop_start (is_cstyle_array (sizeof_raw dt) tensor)
                        {| external := m; flattened_buffer := None |} tensor agg col
                        rows_to_write row slice_num regular_slice_size))
                (Z.to_nat rows_to_write)) as Hlength.
  assert (Hbuf0 : ls_buffer
            (snd (string_loop_start (is_cstyle_array (sizeof_raw dt) tensor)
                    {| external := m; flattened_buffer := None |} tensor agg col
                    rows_to_write row slice_num regular_slice_size))
          = col_buffer (allocate_data (column agg col)
                          (size_mul rows_to_write SIZEOF_OFFSET))).
  { unfold string_loop_start. destruct (negb _); [unfold flatten_tensor |]; reflexivity. }
  destruct (string_loop_start _ _ _ _ _ _ _ _ _) as [st' ls0]. cbn [fst snd] in *.
  destruct (string_rows dt st' (Z.to_nat rows_to_write) ls0) as [ls err].
  cbn [fst out_agg] in *.
  split; [| split; [| split]].
  - intros other Hother. unfold string_loop_segment. cbn [columns].
    by rewrite lookup_insert_ne.
  - unfold column at 1, string_loop_segment. cbn [columns].
    by rewrite lookup_insert_eq.
  - unfold column at 1, string_loop_segment. cbn [columns].
    by rewrite lookup_insert_eq.
  - intros _. rewrite col_buffer_string_loop_segment, Hlength, Hbuf0.
    unfold allocate_data, presized, size_mul. cbn [col_buffer].
    rewrite wrap_size_small by (unfold SIZEOF_OFFSET; lia).
    by rewrite length_app, length_replicate.
Qed.

(** X8.  An error the call returns is always a decoding error of a row of the
    slice.  Only a variable-length string column returns one; its
    [row_index_in_slice_] lies within [0, rows_to_write); the row at that
    index is text that does not decode, the message is the decoder's, and
    every row before it decodes. *)
Theorem returned_error_names_the_first_failing_row type_desc m tensor agg col
    rows_to_write row slice_num regular_slice_size sparsify_floats error :
  let dt := td_data_type type_desc in
  let h := row_handle dt m tensor rows_to_write row slice_num regular_slice_size in
  let out := aggregator_set_data type_desc m tensor agg col rows_to_write row
               slice_num regular_slice_size sparsify_floats in
  0 <= rows_to_write ->
  rows_to_write * 8 < SIZE_MOD ->
  out_result out = Returned (Some error) ->
  dispatch dt = SequenceBranch
  /\ is_fixed_string_type dt = false
  /\ 0 <= row_index_in_slice_ error < rows_to_write
  /\ (exists e, decode_error dt (h (row_index_in_slice_ error)) = Some e
                /\ error_message_ error = error_message_ e)
  /\ forall j, 0 <= j < row_index_in_slice_ error -> decode_error dt (h j) = None.
Proof.
  intros dt h out Hrows Hfit Hresult. subst out.
  destruct (decide (dt = nt_data_type tensor)) as [Htensor | Htensor].
  2:{ destruct (aggregator_set_data_mismatch type_desc m tensor agg col rows_to_write
                  row slice_num regular_slice_size sparsify_floats Htensor)
        as (_ & _ & Hnot). by destruct (Hnot (Some error)). }
  assert (Hkind : dispatch dt = SequenceBranch /\ is_fixed_string_type dt = false).
  { revert Hresult. unfold aggregator_set_data, visit_tag.
    rewrite set_data_visitor_checked by done. cbn zeta. fold dt.
    destruct (dispatch dt); [| | done | done].
    - destruct (is_fixed_string_type dt); done.
    - unfold set_numeric.
      destruct sparsify_floats, (is_floating_point_type dt),
        (is_cstyle_array (sizeof_raw dt) tensor); done. }
  destruct Hkind as [Hbranch Hfixed]. split; [done |]. split; [done |].
  rewrite aggregator_set_data_dynamic in Hresult by done. fold dt in Hresult.
  destruct (set_dynamic_strings_result dt m tensor agg col rows_to_write row
              slice_num regular_slice_size Hrows Hfit)
    as (p & err & Hres & _ & Hp & Hok & _ & Hcase).
  fold h in Hok, Hcase. rewrite Hres in Hresult. injection Hresult as ->.
  destruct Hcase as [[_ ?] | (Hlt & e & Hfail & Herr)]; [done |].
  injection Herr as ->. cbn [row_index_in_slice_ error_message_].
  split; [lia |]. split; [by exists e | done].
Qed.

End CallFacts.

(** ** Further properties of [get_max_string_size] *)

Lemma max_of_upper (zs : list Z) z : In z zs -> z <= max_of zs.
Proof.
  induction zs as [|y zs IH]; cbn; [done |].
  intros [-> | Hin]; [lia |]. specialize (IH Hin). unfold max_of in IH. lia.
Qed.

Lemma max_of_attained (zs : list Z) : max_of zs = 0 \/ In (max_of zs) zs.
Proof.
  induction zs as [|y zs IH]; cbn; [by left |].
  fold (max_of zs). destruct (Z.max_spec y (max_of zs)) as [[_ ->] | [_ ->]].
  - destruct IH as [-> | Hin]; [by left | right; by right].
  - right. by left.
Qed.

Lemma map_ext_seqZ {A : Type} (f g : Z -> A) (n : Z) :
  (forall j, 0 <= j < n -> f j = g j) ->
  map f (seqZ 0 n) = map g (seqZ 0 n).
Proof.
  intros Hfg. apply map_ext_in. intros j Hj.
  apply list_elem_of_In, elem_of_seqZ in Hj. apply Hfg. lia.
Qed.

Section MaxStringSizeBounds.

Context {StringPool : Type} `{!StringPoolOps StringPool}.

(** The lengths [row_lengths] lists are those of the rows whose offset is
    no sentinel. *)
Lemma in_row_lengths (stored : Z -> Z) (text : Z -> list Z) (n z : Z) :
  In z (row_lengths stored text (seqZ 0 n))
  <-> exists row, 0 <= row < n
                  /\ is_sentinel (stored row) = false
                  /\ z = Z.of_nat (length (text row)).
Proof.
  unfold row_lengths. rewrite in_map_iff. split.
  - intros (row & <- & Hrow).
    apply list_elem_of_In, list_elem_of_filter in Hrow as [Hkeep Hrow].
    apply elem_of_seqZ in Hrow. exists row. split; [lia | done].
  - intros (row & Hrow & Hkeep & ->). exists row. split; [done |].
    apply list_elem_of_In, list_elem_of_filter. split; [done |].
    apply elem_of_seqZ. lia.
Qed.

(** X2.  When the function returns on a slice of fewer than [2 ^ 32] rows,
    that is when the row lookup succeeds, every row of the range has its
    slot inside the offset buffer and every offset that is no sentinel
    resolves, the size it returns fits the pooled string of every row of
    the slice whose offset is not a sentinel, and it is no larger than
    needed: it is the length of one of those strings, or zero when the
    slice has no such row or only empty strings. *)
Theorem get_max_string_size_fits_and_is_attained
    (context_row : PipelineContextRow StringPool) (src : list Z)
    (first_row_in_frame : Z) (fuel : nat) (offset : Z)
    (stored : Z -> Z) (text : Z -> list Z) :
  let num_rows := row_range_diff context_row in
  first_context_row context_row first_row_in_frame = Some offset ->
  (forall row, 0 <= row < num_rows ->
     get_offset_string_at (size_add offset row) src = Some (stored row)) ->
  (forall row, 0 <= row < num_rows -> is_sentinel (stored row) = false ->
     get_string_from_pool (stored row) (context_string_pool context_row)
     = Some (text row)) ->
  num_rows < UINT_MOD ->
  (Z.to_nat num_rows < fuel)%nat ->
  exists size,
    get_max_string_size fuel context_row src first_row_in_frame = Some (Size size)
    /\ (forall row, 0 <= row < num_rows -> is_sentinel (stored row) = false ->
          Z.of_nat (length (text row)) <= size)
    /\ (size = 0
        \/ exists row, 0 <= row < num_rows /\ is_sentinel (stored row) = false
                       /\ Z.of_nat (length (text row)) = size).
Proof.
  intros num_rows Hfirst Hread Hresolve Hbound Hfuel.
  pose proof (row_range_diff_nonneg context_row) as Hrows. fold num_rows in Hrows.
  set (lengths := row_lengths stored text (seqZ 0 num_rows)).
  exists (max_of lengths). split; [| split].
  - unfold get_max_string_size. rewrite Hfirst. fold num_rows.
    rewrite (max_string_size_loop_bounded _ _ _ _ stored text (Z.to_nat num_rows))
      by (done || lia).
    rewrite Z2Nat.id, foldl_max_step by lia.
    pose proof (max_of_nonneg lengths). subst lengths. do 2 f_equal. lia.
  - intros row Hrow Hkeep. apply max_of_upper. subst lengths.
    apply in_row_lengths. by exists row.
  - destruct (max_of_attained lengths) as [Hzero | Hin]; [by left |]. right.
    subst lengths. apply in_row_lengths in Hin as (row & Hrow & Hkeep & Hsize).
    by exists row.
Qed.

End MaxStringSizeBounds.

(** ** A variable-length column depends on its handles only *)

(** Two buffers of one length that agree on their first [p] slots and on
    everything after them are the same buffer. *)
Lemma buffer_eq_by_slots (b1 b2 : list Z) (p : Z) :
  0 <= p ->
  length b1 = length b2 ->
  (forall j, 0 <= j < p -> slot_bytes b1 j = slot_bytes b2 j) ->
  drop (Z.to_nat (8 * p)) b1 = drop (Z.to_nat (8 * p)) b2 ->
  b1 = b2.
Proof.
  intros Hp Hlength Hslots Hrest. apply list_eq; intros i.
  destruct (decide (i < Z.to_nat (8 * p))%nat) as [Hlow | Hhigh].
  - pose proof (Nat.div_mod_eq i 8) as Hi.
    pose proof (Nat.mod_upper_bound i 8 ltac:(lia)) as Hr.
    assert (Hslot : forall b : list Z,
              slot_bytes b (Z.of_nat (i / 8)) !! (i mod 8)%nat = b !! i).
    { intros b. unfold slot_bytes. rewrite lookup_read_bytes.
      rewrite decide_True by lia. f_equal. lia. }
    rewrite <- (Hslot b1), <- (Hslot b2), Hslots by lia. done.
  - replace i with (Z.to_nat (8 * p) + (i - Z.to_nat (8 * p)))%nat by lia.
    by rewrite <- !lookup_drop, Hrest.
Qed.

Section LayoutFacts.

Context {DataType : Type} `{!TypeTraits DataType}.
Context `{!PythonRuntime}.
Context {StringPool : Type} `{!StringPoolOps StringPool} `{!Aggregator StringPool}.

Implicit Types (dt : DataType) (type_desc : TypeDescriptor DataType) (m : Memory).
Implicit Types (tensor : NativeTensor DataType) (agg : SegmentInMemory StringPool).

(** The segment a call on a variable-length column leaves is the old one
    with column [col]'s buffer and the pool replaced. *)
Lemma out_agg_set_dynamic_strings dt c_style (st : Store) tensor agg col rows_to_write row
    slice_num regular_slice_size :
  let out := set_dynamic_strings dt c_style st tensor agg col rows_to_write row
               slice_num regular_slice_size in
  out_agg out
  = {| columns :=
         <[col := with_buffer (allocate_data (column agg col)
                                 (size_mul rows_to_write SIZEOF_OFFSET))
                    (col_buffer (column (out_agg out) col))]> (columns agg);
       string_pool := string_pool (out_agg out) |}.
Proof.
  cbn zeta. unfold set_dynamic_strings.
  destruct (string_loop_start _ _ _ _ _ _ _ _ _) as [st' ls0].
  destruct (string_rows _ _ _ _) as [ls err]. cbn [out_agg].
  rewrite col_buffer_string_loop_segment. reflexivity.
Qed.

(** X9.  What a call writes for a variable-length string column is a
    function of the handles of the rows it reaches.  Two frames that give
    the same handle for every row up to and including the first that fails
    to decode, whatever their memory, stride, starting row and slice
    arguments (so one may be read in place and the other flattened first)
    and whatever the rows after the failure hold, leave the same segment
    and return the same result. *)
Theorem variable_length_column_depends_on_handles_only type_desc agg col rows_to_write
    m1 tensor1 row1 slice_num1 regular_slice_size1 sparsify_floats1
    m2 tensor2 row2 slice_num2 regular_slice_size2 sparsify_floats2 :
  let dt := td_data_type type_desc in
  let h1 := row_handle dt m1 tensor1 rows_to_write row1 slice_num1 regular_slice_size1 in
  let h2 := row_handle dt m2 tensor2 rows_to_write row2 slice_num2 regular_slice_size2 in
  let out1 := aggregator_set_data type_desc m1 tensor1 agg col rows_to_write row1
                slice_num1 regular_slice_size1 sparsify_floats1 in
  let out2 := aggregator_set_data type_desc m2 tensor2 agg col rows_to_write row2
                slice_num2 regular_slice_size2 sparsify_floats2 in
  dispatch dt = SequenceBranch ->
  is_fixed_string_type dt = false ->
  dt = nt_data_type tensor1 ->
  dt = nt_data_type tensor2 ->
  0 <= rows_to_write ->
  rows_to_write * 8 < SIZE_MOD ->
  (forall j, 0 <= j < rows_to_write ->
     (forall i, 0 <= i < j -> decode_error dt (h1 i) = None) ->
     h1 j = h2 j) ->
  out_agg out1 = out_agg out2 /\ out_result out1 = out_result out2.
Proof.
  intros dt h1 h2 out1 out2 Hbranch Hfixed Htensor1 Htensor2 Hrows Hfit Hsame.
  subst out1 out2. rewrite !aggregator_set_data_dynamic by done. fold dt.
  destruct (set_dynamic_strings_result dt m1 tensor1 agg col rows_to_write row1
              slice_num1 regular_slice_size1 Hrows Hfit)
    as (p1 & err1 & Hres1 & _ & Hp1 & Hok1 & Hwritten1 & Hcase1).
  destruct (set_dynamic_strings_result dt m2 tensor2 agg col rows_to_write row2
              slice_num2 regular_slice_size2 Hrows Hfit)
    as (p2 & err2 & Hres2 & _ & Hp2 & Hok2 & Hwritten2 & Hcase2).
  fold h1 in Hok1, Hwritten1, Hcase1. fold h2 in Hok2, Hwritten2, Hcase2.
  assert (Hreached : forall j, 0 <= j <= p1 -> j < rows_to_write -> h1 j = h2 j).
  { intros j Hj Hlt. apply Hsame; [lia |]. intros i Hi. apply Hok1. lia. }
  assert (Hstop : p1 = p2 /\ err1 = err2).
  { destruct Hcase1 as [[-> ->] | (Hlt1 & e1 & Hfail1 & ->)],
      Hcase2 as [[-> ->] | (Hlt2 & e2 & Hfail2 & ->)].
    - done.
    - rewrite <- Hreached, Hok1 in Hfail2 by lia. done.
    - rewrite Hreached, Hok2 in Hfail1 by lia. done.
    - assert (p1 = p2) as ->.
      { destruct (Z.lt_trichotomy p1 p2) as [Hlt | [-> | Hgt]]; [| done |].
        - rewrite Hreached, Hok2 in Hfail1 by lia. done.
        - rewrite <- Hreached, Hok1 in Hfail2 by lia. done. }
      rewrite Hreached, Hfail2 in Hfail1 by lia. by injection Hfail1 as ->. }
  destruct Hstop as [<- <-]. split; [| by rewrite Hres1, Hres2].
  destruct Hwritten1 as (Hpool1 & Hlength1 & Hslots1 & Hrest1).
  destruct Hwritten2 as (Hpool2 & Hlength2 & Hslots2 & Hrest2).
  rewrite out_agg_set_dynamic_strings. symmetry.
  rewrite out_agg_set_dynamic_strings. symmetry.
  assert (Hhandles : forall k, 0 <= k <= p1 ->
            map h1 (seqZ 0 k) = map h2 (seqZ 0 k)).
  { intros k Hk. apply map_ext_seqZ. intros j Hj. apply Hreached; lia. }
  f_equal.
  - do 2 f_equal. apply (buffer_eq_by_slots _ _ p1); [lia | congruence | | congruence].
    intros j Hj. rewrite Hslots1, Hslots2 by done.
    by rewrite Hreached, Hhandles by lia.
  - by rewrite Hpool1, Hpool2, Hhandles by lia.
Qed.

End LayoutFacts.

(** ** Writing a text column, then sizing it *)

Section WriteThenSize.

Context {DataType : Type} `{!TypeTraits DataType}.
Context `{!PythonRuntime}.
Context {StringPool : Type} `{!StringPoolOps StringPool} `{!Aggregator StringPool}.

Implicit Types (dt : DataType) (pool : StringPool) (obj : Z).

(** What the header needs of a string pool for the two functions to work
    together: [get] gives out a token that resolves to the content, and a
    token once given out keeps resolving to the same content. *)
Variable issued : StringPool -> Z -> Prop.

Hypothesis get_issues : forall pool s,
  issued (fst (pool_get pool s)) (snd (pool_get pool s)).
Hypothesis get_resolves : forall pool s,
  get_string_from_pool (snd (pool_get pool s)) (fst (pool_get pool s)) = Some s.
Hypothesis get_keeps : forall pool offset s,
  issued pool offset ->
  issued (fst (pool_get pool s)) offset
  /\ get_string_from_pool offset (fst (pool_get pool s))
     = get_string_from_pool offset pool.

Lemma intern_rows_keep dt objs : forall pool offset,
  issued pool offset ->
  issued (intern_rows dt pool objs) offset
  /\ get_string_from_pool offset (intern_rows dt pool objs)
     = get_string_from_pool offset pool.
Proof.
  unfold intern_rows.
  induction objs as [|obj objs IH]; intros pool offset Hissued; cbn [foldl]; [done |].
  assert (Hstep : issued (intern_row dt pool obj) offset
                  /\ get_string_from_pool offset (intern_row dt pool obj)
                     = get_string_from_pool offset pool).
  { unfold intern_row. destruct (is_text obj); [| done].
    destruct (decode dt obj) as [e | w]; [done |]. by apply get_keeps. }
  destruct Hstep as [Hissued' Hsame].
  destruct (IH _ _ Hissued') as [Hend Hresolve]. split; [done |]. congruence.
Qed.

(** A row that is reached holds text, and then its token is the pool's for
    that text, or it holds a sentinel. *)
Lemma row_token_cases dt pool obj :
  decode_error dt obj = None ->
  match row_text dt obj with
  | Some bytes =>
      row_token dt pool obj = snd (pool_get pool bytes)
      /\ intern_row dt pool obj = fst (pool_get pool bytes)
  | None =>
      row_token dt pool obj = not_a_string \/ row_token dt pool obj = nan_placeholder
  end.
Proof.
  unfold decode_error, row_text, row_token, intern_row, is_text.
  destruct (bool_decide (obj = py_none)); cbn [negb andb]; [intros _; by left |].
  destruct (is_py_nan obj); cbn [negb andb]; [intros _; by right |].
  by destruct (decode dt obj) as [e | w].
Qed.

Lemma is_sentinel_sentinels :
  is_sentinel not_a_string = true /\ is_sentinel nan_placeholder = true.
Proof.
  unfold is_sentinel. rewrite !Z.eqb_refl. by rewrite orb_true_r.
Qed.

(** X10.  Writing then sizing.  Let a call write a variable-length string
    column of fewer than [2 ^ 32] rows, all of which decode, with a pool
    whose tokens resolve, stay valid, fit 64 bits and are no sentinel.
    Then [get_max_string_size], run over the rows just written with the
    segment's pool, returns the length of the longest text among the rows'
    handles; rows holding [None] or NaN do not count.  A write of no row
    leaves no row to look up: there the row lookup fails. *)
Theorem written_column_is_sized_by_its_longest_text (type_desc : TypeDescriptor DataType)
    (m : Memory) (tensor : NativeTensor DataType) (agg : SegmentInMemory StringPool)
    (col rows_to_write row slice_num regular_slice_size : Z) (sparsify_floats : bool) :
  let dt := td_data_type type_desc in
  let h := row_handle dt m tensor rows_to_write row slice_num regular_slice_size in
  let out := aggregator_set_data type_desc m tensor agg col rows_to_write row
               slice_num regular_slice_size sparsify_floats in
  let written := {| row_range := (0, rows_to_write);
                    context_string_pool := string_pool (out_agg out) |} in
  dispatch dt = SequenceBranch ->
  is_fixed_string_type dt = false ->
  dt = nt_data_type tensor ->
  0 <= rows_to_write < UINT_MOD ->
  0 <= not_a_string < SIZE_MOD ->
  0 <= nan_placeholder < SIZE_MOD ->
  (forall offset, issued (string_pool (out_agg out)) offset ->
     0 <= offset < SIZE_MOD /\ is_sentinel offset = false) ->
  (forall j, 0 <= j < rows_to_write -> decode_error dt (h j) = None) ->
  get_max_string_size (S (Z.to_nat rows_to_write)) written
    (col_buffer (column (out_agg out) col)) 0
  = Some (if rows_to_write =? 0 then LookupFailed RowInSlice
          else Size (max_of (text_lengths dt (map h (seqZ 0 rows_to_write))))).
Proof.
  intros dt h out written Hbranch Hfixed Htensor Hrows Hnone Hnan Hroom Hdecode.
  destruct (Z.eqb_spec rows_to_write 0) as [-> | Hsome]; [done |].
  assert (Hfit : rows_to_write * 8 < SIZE_MOD) by (unfold UINT_MOD, SIZE_MOD in *; lia).
  destruct (set_dynamic_strings_result dt m tensor agg col rows_to_write row
              slice_num regular_slice_size ltac:(lia) Hfit)
    as (p & err & _ & _ & Hp & _ & Hwritten & Hcase).
  rewrite <- (aggregator_set_data_dynamic type_desc m tensor agg col rows_to_write row
                slice_num regular_slice_size sparsify_floats) in Hwritten by done.
  fold out h in Hwritten. fold h in Hcase.
  assert (p = rows_to_write) as ->.
  { destruct Hcase as [[-> _] | (Hlt & e & Hfail & _)]; [done |].
    rewrite Hdecode in Hfail by lia. done. }
  destruct Hwritten as (Hpool & Hlength & Hslots & _).
  set (final := string_pool (out_agg out)) in *.
  set (buffer := col_buffer (column (out_agg out) col)) in *.
  set (pool_at := fun j => intern_rows dt (string_pool agg) (map h (seqZ 0 j))) in *.
  (* the token of each row, seen from the final pool *)
  assert (Htokens : forall j, 0 <= j < rows_to_write ->
            match row_text dt (h j) with
            | Some bytes =>
                issued final (row_token dt (pool_at j) (h j))
                /\ get_string_from_pool (row_token dt (pool_at j) (h j)) final
                   = Some bytes
            | None =>
                row_token dt (pool_at j) (h j) = not_a_string
                \/ row_token dt (pool_at j) (h j) = nan_placeholder
            end).
  { intros j Hj.
    pose proof (row_token_cases dt (pool_at j) (h j) (Hdecode j Hj)) as Hrow.
    destruct (row_text dt (h j)) as [bytes |]; [| done].
    destruct Hrow as [Htoken Hintern].
    assert (Hnext : pool_at (j + 1) = fst (pool_get (pool_at j) bytes)).
    { subst pool_at. cbn beta. rewrite <- (Z2Nat.id j) at 1 by lia.
      rewrite map_seqZ_snoc, intern_rows_snoc, Z2Nat.id by lia. done. }
    assert (Hend : final = intern_rows dt (pool_at (j + 1))
                             (map h (seqZ (0 + (j + 1)) (rows_to_write - (j + 1))))).
    { rewrite Hpool. subst pool_at. cbn beta. unfold intern_rows.
      rewrite <- foldl_app, <- map_app, <- seqZ_app by lia.
      by replace (j + 1 + (rows_to_write - (j + 1))) with rows_to_write by lia. }
    rewrite Htoken, Hend.
    destruct (intern_rows_keep dt
                (map h (seqZ (0 + (j + 1)) (rows_to_write - (j + 1))))
                (pool_at (j + 1)) (snd (pool_get (pool_at j) bytes))) as [Hissued Hsame].
    { rewrite Hnext. apply get_issues. }
    split; [done |]. rewrite Hsame, Hnext. apply get_resolves. }
  (* the offset stored for each row, and the string it resolves to *)
  set (stored := fun j => wrap_size (row_token dt (pool_at j) (h j))).
  set (text := fun j => default [] (row_text dt (h j))).
  assert (Hstored : forall j, 0 <= j < rows_to_write ->
            get_offset_string_at (size_add 0 j) buffer = Some (stored j)).
  { intros j Hj. unfold size_add.
    rewrite Z.add_0_l, wrap_size_small by (unfold UINT_MOD, SIZE_MOD in *; lia).
    unfold get_offset_string_at.
    assert (Hlong : 8 * rows_to_write <= Z.of_nat (length buffer)).
    { rewrite Hlength. unfold allocate_data, presized, size_mul. cbn [col_buffer].
      rewrite wrap_size_small by (unfold SIZEOF_OFFSET; lia).
      rewrite length_app, length_replicate. unfold SIZEOF_OFFSET. lia. }
    rewrite (proj2 (Z.leb_le 0 j)), (proj2 (Z.leb_le (8 * j + 8) _)) by lia.
    cbn [andb]. f_equal. unfold read_word, read_word_at.
    change (read_bytes buffer (Z.to_nat (8 * j)) 8) with (slot_bytes buffer j).
    rewrite Hslots by done. apply decode_encode_word. }
  assert (Hkind : forall j, 0 <= j < rows_to_write ->
            match row_text dt (h j) with
            | Some bytes =>
                is_sentinel (stored j) = false
                /\ get_string_from_pool (stored j) final = Some bytes
            | None => is_sentinel (stored j) = true
            end).
  { intros j Hj. pose proof (Htokens j Hj) as Htoken. subst stored. cbn beta.
    destruct is_sentinel_sentinels as [Hs1 Hs2].
    destruct (row_text dt (h j)) as [bytes |].
    - destruct Htoken as [Hissued Hresolve].
      destruct (Hroom _ Hissued) as [Hrange Hkeep].
      by rewrite wrap_size_small by done.
    - destruct Htoken as [-> | ->]; by rewrite wrap_size_small by done. }
  assert (Hresolves : forall j, 0 <= j < rows_to_write -> is_sentinel (stored j) = false ->
            get_string_from_pool (stored j) final = Some (text j)).
  { intros j Hj Hkeep. pose proof (Hkind j Hj) as Hrow. subst text. cbn beta.
    destruct (row_text dt (h j)) as [bytes |]; [by destruct Hrow | congruence]. }
  (* row by row, the lengths that count are the lengths of the texts *)
  assert (Hlengths : forall k : nat, Z.of_nat k <= rows_to_write ->
            row_lengths stored text (seqZ 0 (Z.of_nat k))
            = text_lengths dt (map h (seqZ 0 (Z.of_nat k)))).
  { induction k as [|k IH]; intros Hk; [done |].
    rewrite seqZ_S, !map_app. cbn [map]. rewrite Z.add_0_l.
    unfold row_lengths, text_lengths in *.
    rewrite filter_app, omap_app, !map_app, IH by lia. f_equal.
    pose proof (Hkind (Z.of_nat k) ltac:(lia)) as Hrow. subst text. cbn beta.
    cbn [omap list_omap].
    destruct (row_text dt (h (Z.of_nat k))) as [bytes |] eqn:Htext.
    - destruct Hrow as [Hkeep _]. rewrite filter_cons_True by done.
      cbn. by rewrite Htext.
    - rewrite filter_cons_False; [done |]. congruence. }
  assert (Hdiff : row_range_diff written = rows_to_write).
  { unfold row_range_diff. cbn [written row_range fst snd].
    destruct (Z.gtb_spec 0 rows_to_write); lia. }
  assert (Hfirst : first_context_row written 0 = Some 0).
  { apply first_context_row_Some. cbn [written row_range fst snd]. lia. }
  unfold get_max_string_size. rewrite Hfirst, Hdiff.
  rewrite (max_string_size_loop_bounded _ _ _ _ stored text (Z.to_nat rows_to_write))
    by (done || lia).
  rewrite foldl_max_step by lia.
  rewrite (Hlengths (Z.to_nat rows_to_write)) by lia. rewrite Z2Nat.id by lia.
  pose proof (max_of_nonneg (text_lengths dt (map h (seqZ 0 rows_to_write)))).
  do 2 f_equal. lia.
Qed.

End WriteThenSize.

(** The list pool keeps the three promises. *)
Lemma find_entry_Some s (entries : list (list Z)) : forall i k,
  Instances.find_entry s entries i = Some k ->
  i <= k /\ entries !! Z.to_nat (k - i) = Some s.
Proof.
  induction entries as [|e es IH]; intros i k; cbn [Instances.find_entry]; [done |].
  case_bool_decide as He.
  - intros [= <-]. split; [lia |]. rewrite Z.sub_diag. by subst e.
  - intros Hfind. destruct (IH _ _ Hfind) as [Hle Hlookup]. split; [lia |].
    replace (Z.to_nat (k - i)) with (S (Z.to_nat (k - (i + 1)))) by lia. done.
Qed.

Lemma list_pool_get_issues (pool : list (list Z)) s :
  list_pool_issued (fst (pool_get pool s)) (snd (pool_get pool s)).
Proof.
  unfold list_pool_issued. cbn [pool_get Instances.list_pool].
  unfold Instances.list_pool_get.
  destruct (Instances.find_entry s pool 0) as [k |] eqn:Hfind; cbn [fst snd].
  - destruct (find_entry_Some _ _ _ _ Hfind) as [Hle Hlookup].
    apply lookup_lt_Some in Hlookup. lia.
  - rewrite length_app. cbn. lia.
Qed.

(** A token the list pool has given out resolves to the entry at its
    position. *)
Lemma list_pool_resolve (pool : list (list Z)) offset :
  list_pool_issued pool offset ->
  get_string_from_pool offset pool = pool !! Z.to_nat offset.
Proof.
  unfold list_pool_issued. intros Hissued. cbn [get_string_from_pool Instances.list_pool].
  rewrite (proj2 (Z.leb_le 0 offset)), (proj2 (Z.ltb_lt offset _)) by lia. done.
Qed.

Lemma list_pool_get_resolves (pool : list (list Z)) s :
  get_string_from_pool (snd (pool_get pool s)) (fst (pool_get pool s)) = Some s.
Proof.
  rewrite list_pool_resolve by apply list_pool_get_issues.
  cbn [pool_get Instances.list_pool].
  unfold Instances.list_pool_get.
  destruct (Instances.find_entry s pool 0) as [k |] eqn:Hfind; cbn [fst snd].
  - destruct (find_entry_Some _ _ _ _ Hfind) as [Hle Hlookup].
    by rewrite Z.sub_0_r in Hlookup.
  - rewrite Nat2Z.id, lookup_app_r, Nat.sub_diag by lia. done.
Qed.

Lemma list_pool_get_keeps (pool : list (list Z)) offset s :
  list_pool_issued pool offset ->
  list_pool_issued (fst (pool_get pool s)) offset
  /\ get_string_from_pool offset (fst (pool_get pool s))
     = get_string_from_pool offset pool.
Proof.
  intros Hissued.
  assert (Hstays : list_pool_issued (fst (pool_get pool s)) offset).
  { unfold list_pool_issued in *. cbn [pool_get Instances.list_pool].
    unfold Instances.list_pool_get.
    destruct (Instances.find_entry s pool 0) as [k |]; cbn [fst]; [done |].
    rewrite length_app. lia. }
  split; [done |]. rewrite !list_pool_resolve by done.
  unfold list_pool_issued in Hissued. cbn [pool_get Instances.list_pool].
  unfold Instances.list_pool_get.
  destruct (Instances.find_entry s pool 0) as [k |]; cbn [fst]; [done |].
  by rewrite lookup_app_l by lia.
Qed.

(** ** The further properties on small frames *)

Section MoreExamples.

Import Instances Frames.

#[local] Existing Instance example_runtime.

Lemma sparsify_ignored_witness :
  aggregator_set_data (mkTypeDescriptor UTF_DYNAMIC64) text_memory text_tensor
    empty_segment 0 5 0 0 5 true
  = aggregator_set_data (mkTypeDescriptor UTF_DYNAMIC64) text_memory text_tensor
      empty_segment 0 5 0 0 5 false.
Proof.
  apply (sparsify_floats_is_ignored_off_the_numeric_branch
           (mkTypeDescriptor UTF_DYNAMIC64) text_memory text_tensor empty_segment
           0 5 0 0 5).
  discriminate.
Defined.

(** The raw-bytes column meets the text that a UTF column would have to
    decode under the lock, and then a malformed one: no lock is taken. *)
Lemma no_lock_witness :
  out_gil (aggregator_set_data (mkTypeDescriptor ASCII_DYNAMIC64) packed_memory
             ascii_tensor empty_segment 0 4 0 0 4 false) = None.
Proof.
  exact (proj1 (lock_is_never_taken_off_utf (mkTypeDescriptor ASCII_DYNAMIC64)
                  packed_memory ascii_tensor empty_segment 0 4 0 0 4 false eq_refl)).
Defined.

Lemma confined_write_witness :
  let out := aggregator_set_data (mkTypeDescriptor UTF_DYNAMIC64) text_memory text_tensor
               used_segment 0 5 0 0 5 false in
  columns (out_agg out) !! 1 = Some (mkColumn [] [(64, 4)] None)
  /\ length (col_buffer (column (out_agg out) 0)) = 43%nat.
Proof.
  pose proof (variable_length_write_is_confined_to_its_column
                (mkTypeDescriptor UTF_DYNAMIC64) text_memory text_tensor used_segment
                0 5 0 0 5 false eq_refl eq_refl ltac:(lia) ltac:(vm_compute; reflexivity))
    as (Hothers & _ & _ & Hlength).
  split.
  - etrans; [apply (Hothers 1); lia |]. vm_compute. reflexivity.
  - etrans; [apply Hlength; reflexivity |]. vm_compute. reflexivity.
Defined.

Lemma returned_error_witness :
  0 <= 2 < 4
  /\ exists e,
       decode_error UTF_DYNAMIC64
         (row_handle UTF_DYNAMIC64 strided_memory strided_tensor 4 7 0 4 2) = Some e
       /\ "cannot decode"%string = error_message_ e.
Proof.
  pose proof (returned_error_names_the_first_failing_row
                (mkTypeDescriptor UTF_DYNAMIC64) strided_memory strided_tensor
                empty_segment 0 4 7 0 4 false
                {| error_message_ := "cannot decode"; row_index_in_slice_ := 2 |}
                ltac:(lia) ltac:(vm_compute; reflexivity)
                ltac:(vm_compute; reflexivity))
    as (_ & _ & Hindex & Hrow & _).
  split; [exact Hindex | exact Hrow].
Defined.

Lemma max_string_size_fits_witness :
  exists size,
    get_max_string_size 6 example_context_row example_offsets 0 = Some (Size size)
    /\ (forall row, 0 <= row < 5 -> is_sentinel (example_stored row) = false ->
          Z.of_nat (length (example_text row)) <= size)
    /\ (size = 0
        \/ exists row, 0 <= row < 5 /\ is_sentinel (example_stored row) = false
                       /\ Z.of_nat (length (example_text row)) = size).
Proof.
  apply (get_max_string_size_fits_and_is_attained example_context_row example_offsets
           0 6 0 example_stored example_text).
  - vm_compute. reflexivity.
  - intros row Hrow. change (0 <= row < 5) in Hrow.
    assert (row = 0 \/ row = 1 \/ row = 2 \/ row = 3 \/ row = 4)
      as [-> | [-> | [-> | [-> | ->]]]] by lia; vm_compute; reflexivity.
  - intros row Hrow. change (0 <= row < 5) in Hrow.
    assert (row = 0 \/ row = 1 \/ row = 2 \/ row = 3 \/ row = 4)
      as [-> | [-> | [-> | [-> | ->]]]] by lia; vm_compute; done.
  - vm_compute. reflexivity.
  - vm_compute. lia.
Defined.

(** The strided column, which is flattened first, and a packed column that
    is read in place and differs from it after the malformed row, leave the
    same segment and the same error. *)
Lemma same_handles_witness :
  let out1 := aggregator_set_data (mkTypeDescriptor UTF_DYNAMIC64) strided_memory
                strided_tensor empty_segment 0 4 7 0 4 false in
  let out2 := aggregator_set_data (mkTypeDescriptor UTF_DYNAMIC64) packed_memory
                packed_tensor empty_segment 0 4 0 0 0 true in
  out_agg out1 = out_agg out2 /\ out_result out1 = out_result out2.
Proof.
  apply (variable_length_column_depends_on_handles_only
           (mkTypeDescriptor UTF_DYNAMIC64) empty_segment 0 4
           strided_memory strided_tensor 7 0 4 false
           packed_memory packed_tensor 0 0 0 true);
    [reflexivity | reflexivity | reflexivity | reflexivity | lia
    | vm_compute; reflexivity |].
  intros j Hj Hbefore.
  assert (j = 0 \/ j = 1 \/ j = 2 \/ j = 3) as [-> | [-> | [-> | ->]]] by lia;
    [vm_compute; reflexivity | vm_compute; reflexivity | vm_compute; reflexivity |].
  specialize (Hbefore 2 ltac:(lia)). vm_compute in Hbefore. discriminate.
Defined.

(** The column of the specification's example, written and then sized: the
    longest text, "bb", has two bytes. *)
Lemma write_then_size_witness :
  let out := aggregator_set_data (mkTypeDescriptor UTF_DYNAMIC64) text_memory text_tensor
               empty_segment 0 5 0 0 5 false in
  get_max_string_size 6
    {| row_range := (0, 5); context_string_pool := string_pool (out_agg out) |}
    (col_buffer (column (out_agg out) 0)) 0
  = Some (Size 2).
Proof.
  assert (Hpool : string_pool
            (out_agg (aggregator_set_data (mkTypeDescriptor UTF_DYNAMIC64) text_memory
                        text_tensor empty_segment 0 5 0 0 5 false))
          = [[97]; [98; 98]]) by (vm_compute; reflexivity).
  etrans.
  - apply (written_column_is_sized_by_its_longest_text list_pool_issued
             list_pool_get_issues list_pool_get_resolves list_pool_get_keeps
             (mkTypeDescriptor UTF_DYNAMIC64) text_memory text_tensor empty_segment
             0 5 0 0 5 false);
      [reflexivity | reflexivity | reflexivity
      | vm_compute; split; [discriminate | reflexivity]
      | vm_compute; split; [discriminate | reflexivity]
      | vm_compute; split; [discriminate | reflexivity] | |].
    + intros offset Hissued. rewrite Hpool in Hissued.
      unfold list_pool_issued in Hissued. cbn [length] in Hissued.
      assert (offset = 0 \/ offset = 1) as [-> | ->] by lia;
        (split; [vm_compute; split; [discriminate | reflexivity]
                | vm_compute; reflexivity]).
    + intros j Hj.
      assert (j = 0 \/ j = 1 \/ j = 2 \/ j = 3 \/ j = 4)
        as [-> | [-> | [-> | [-> | ->]]]] by lia; vm_compute; reflexivity.
  - vm_compute. reflexivity.
Defined.

End MoreExamples.

(** ** What the functions do not read *)

Section Unread.

Context {StringPool : Type} `{!StringPoolOps StringPool}.

Lemma max_string_size_loop_ext (pool : StringPool) (src1 src2 : list Z) offset num_rows :
  (forall row, 0 <= row < num_rows ->
     get_offset_string_at (size_add offset row) src1
     = get_offset_string_at (size_add offset row) src2) ->
  forall fuel row max_length,
    0 <= row ->
    max_string_size_loop fuel pool src1 offset num_rows row max_length
    = max_string_size_loop fuel pool src2 offset num_rows row max_length.
Proof.
  intros Hsame. induction fuel as [|fuel IH]; intros row acc Hrow; [done |].
  cbn [max_string_size_loop].
  destruct (Z.ltb_spec row num_rows) as [Hlt | Hge]; [| done].
  assert (0 <= wrap_uint (row + 1))
    by (apply Z.mod_pos_bound; unfold UINT_MOD; lia).
  rewrite Hsame by lia.
  destruct (get_offset_string_at _ src2) as [offset_val |]; [| done].
  destruct (_ || _); [by rewrite IH |].
  destruct (get_string_from_pool _ _); [by rewrite IH | done].
Qed.

(** X3.  [get_max_string_size] looks into the offset buffer at the rows of
    the slice only.  Two buffers for which the lookups at the positions
    [offset + row], [row] below the slice's row count and [offset] the
    position the row lookup gives, have the same outcome give the same
    answer for every amount of fuel, be it a size, a failed lookup or no
    end: what lies before or after the slice in the buffer does not
    matter. *)
Theorem get_max_string_size_reads_its_slice_only
    (context_row : PipelineContextRow StringPool) (src1 src2 : list Z)
    (first_row_in_frame : Z) (fuel : nat) :
  (forall offset row,
     first_context_row context_row first_row_in_frame = Some offset ->
     0 <= row < row_range_diff context_row ->
     get_offset_string_at (size_add offset row) src1
     = get_offset_string_at (size_add offset row) src2) ->
  get_max_string_size fuel context_row src1 first_row_in_frame
  = get_max_string_size fuel context_row src2 first_row_in_frame.
Proof.
  intros Hsame. unfold get_max_string_size.
  destruct (first_context_row context_row first_row_in_frame) as [offset |]; [| done].
  apply max_string_size_loop_ext; [| done]. intros row Hrow. by apply Hsame.
Qed.

End Unread.

Section PositionArguments.

Context {DataType : Type} `{!TypeTraits DataType}.
Context `{!PythonRuntime}.
Context {StringPool : Type} `{!StringPoolOps StringPool} `{!Aggregator StringPool}.

(** X11.  Which position arguments a call reads depends on the layout.  For a
    C-style view the rows are found from [row]: [slice_num] and
    [regular_slice_size] are not read.  For any other view a
    variable-length string column and a dense numeric or boolean column are
    found from [slice_num] and [regular_slice_size]: [row] is not read. *)
Theorem position_arguments_follow_the_layout (type_desc : TypeDescriptor DataType)
    (m : Memory) (tensor : NativeTensor DataType) (agg : SegmentInMemory StringPool)
    (col rows_to_write row row' slice_num slice_num' : Z)
    (regular_slice_size regular_slice_size' : Z) (sparsify_floats : bool) :
  let dt := td_data_type type_desc in
  (is_cstyle_array (sizeof_raw dt) tensor = true ->
   aggregator_set_data type_desc m tensor agg col rows_to_write row
     slice_num regular_slice_size sparsify_floats
   = aggregator_set_data type_desc m tensor agg col rows_to_write row
       slice_num' regular_slice_size' sparsify_floats)
  /\ (is_cstyle_array (sizeof_raw dt) tensor = false ->
      is_fixed_string_type dt = false ->
      aggregator_set_data type_desc m tensor agg col rows_to_write row
        slice_num regular_slice_size false
      = aggregator_set_data type_desc m tensor agg col rows_to_write row'
          slice_num regular_slice_size false).
Proof.
  intros dt. split.
  - intros Hstyle. unfold aggregator_set_data, visit_tag, set_data_visitor. fold dt.
    rewrite Hstyle.
    destruct (dispatch dt); try done; destruct (negb _); try done;
      destruct (negb _); try done.
    all: try (destruct (is_fixed_string_type dt); done).
    all: try (unfold set_numeric; by destruct sparsify_floats, (is_floating_point_type dt)).
  - intros Hstyle Hfixed. unfold aggregator_set_data, visit_tag, set_data_visitor.
    fold dt. rewrite Hstyle, Hfixed.
    destruct (dispatch dt); try done; destruct (negb _); try done;
      destruct (negb _); done.
Qed.

End PositionArguments.

Section UnreadExamples.

Import Instances Frames.

Lemma reads_its_slice_only_witness :
  get_max_string_size 6 trailing_context_row example_offsets 0
  = get_max_string_size 6 trailing_context_row trailing_offsets 0.
Proof.
  apply (get_max_string_size_reads_its_slice_only trailing_context_row
           example_offsets trailing_offsets 0 6).
  intros offset row [= <-] Hrow. change (0 <= row < 5) in Hrow.
  assert (row = 0 \/ row = 1 \/ row = 2 \/ row = 3 \/ row = 4)
    as [-> | [-> | [-> | [-> | ->]]]] by lia.
  all: vm_compute; reflexivity.
Defined.

End UnreadExamples.
